(** * hn-backend: a shallow embedding of the ingestion and extraction pipeline

    The development follows the Python sources:
    - [database/db_layer.py]            (story and comment operations on the
      record store),
    - [services/hn_api_service.py]      (item fetcher and batch comment fetcher),
    - [services/processing_service.py]  (text normalisation, bulk and single
      extraction, the write-back helper).

    Python values are modelled as the code sees them: [str] as [string],
    [int] as [Z], parsed JSON as the tree [json] (with [JNull] for [None]),
    an exception as its class together with the text of [str(e)].  Code that
    can raise returns a [result].  Everything outside the process (the record
    store, the forum API, the language model) lives in a [World] that is
    threaded through the calls; an exception leaves the world as it was at the
    moment of the raise, as in Python.  Logging and the courtesy delay before
    a request have no effect on any value and are left out.

    Part I holds the embedding, Part II the lemmas and theorems. *)

From Stdlib Require Import String Ascii List ZArith Lia Bool Arith.
From Stdlib Require Import DecimalString.
From Equations Require Import Equations.
Import ListNotations.

Local Open Scope string_scope.
Local Set Warnings "-register-all".

(* ===================================================================== *)
(** * Part I: the embedding *)
(* ===================================================================== *)

(** ** Python strings *)

(** A text is the sequence of its UTF-8 bytes.  The patterns the code
    searches for are ASCII, and an ASCII byte is never part of a longer
    UTF-8 sequence, so searching and replacing on bytes is searching and
    replacing on characters. *)

Module PyStr.

(** [s[n:]] *)
Fixpoint drop (n : nat) (s : string) : string :=
  match n, s with
  | O, _ => s
  | S _, EmptyString => EmptyString
  | S k, String _ t => drop k t
  end.

(** [s.startswith(p)] *)
Fixpoint startswith (p s : string) : bool :=
  match p, s with
  | EmptyString, _ => true
  | String _ _, EmptyString => false
  | String a p', String b s' => Ascii.eqb a b && startswith p' s'
  end.

(** [p in s] *)
Fixpoint contains (p s : string) : bool :=
  match s with
  | EmptyString => startswith p EmptyString
  | String _ t => startswith p s || contains p t
  end.

(** What [s.replace("", new)] returns: [new] in front of every character
    and at the end. *)
Fixpoint replace_empty (new s : string) : string :=
  match s with
  | EmptyString => new
  | String c t => new ++ String c (replace_empty new t)
  end.

(** Closes the termination goals of the scans below: a suffix of [t] is
    shorter than [t] with one more character in front. *)
Ltac drop_shorter k t :=
  change (String.length (drop k t) < S (String.length t));
  generalize k; clear - t;
  let n := fresh "n" in
  let IH := fresh "IH" in
  let u := fresh "u" in
  intro n; revert t;
  induction n as [|n IH]; intros [|? u]; simpl; try lia;
  specialize (IH u); lia.

(** [s.replace(old, new)] for a non-empty [old]: the occurrences of [old] are
    found from the left, without overlap, and each is replaced by [new]. *)
Equations? replace_scan (old new s : string) : string
  by wf (String.length s) lt :=
  replace_scan old new EmptyString := EmptyString;
  replace_scan old new (String c t) with startswith old (String c t) := {
    | true := new ++ replace_scan old new (drop (String.length old - 1) t)
    | false := String c (replace_scan old new t) }.
Proof.
  drop_shorter (String.length old - 1) t.
Qed.

(** [s.replace(old, new)] *)
Definition replace (old new s : string) : string :=
  match old with
  | EmptyString => replace_empty new s
  | String _ _ => replace_scan old new s
  end.

(** [str(n)] for an [int]. *)
Definition of_int (n : Z) : string := NilZero.string_of_int (Z.to_int n).

End PyStr.

(** ** Parsed JSON and Python dictionaries *)

(** What [json.loads] / [response.json()] return.  [JNull] is [None]; a
    dictionary is kept as the list of its items, each key once.  Numbers
    are integers: the code never computes with a number of a payload. *)
Inductive json : Type :=
| JNull
| JBool (b : bool)
| JNum (n : Z)
| JStr (s : string)
| JArr (items : list json)
| JObj (items : list (string * json)).

Definition dict : Type := list (string * json).

(** [bool(v)] *)
Definition truthy (v : json) : bool :=
  match v with
  | JNull => false
  | JBool b => b
  | JNum n => negb (n =? 0)%Z
  | JStr s => negb (s =? "")
  | JArr l => match l with [] => false | _ :: _ => true end
  | JObj d => match d with [] => false | _ :: _ => true end
  end.

(** [d.get(key)]: the value under [key], [None] when there is none. *)
Fixpoint dict_get (key : string) (d : dict) : json :=
  match d with
  | [] => JNull
  | (k, v) :: d' => if k =? key then v else dict_get key d'
  end.

(** [v is True] *)
Definition is_True (v : json) : bool :=
  match v with JBool true => true | _ => false end.

(** [v is None] *)
Definition is_None (v : json) : bool :=
  match v with JNull => true | _ => false end.

(** [type(v).__name__], as it appears in the text of an [AttributeError]. *)
Definition type_name (v : json) : string :=
  match v with
  | JNull => "NoneType"
  | JBool _ => "bool"
  | JNum _ => "int"
  | JStr _ => "str"
  | JArr _ => "list"
  | JObj _ => "dict"
  end.

(** ** Exceptions and results *)

Inductive exn_class : Type :=
| HNAPIError        (* services/hn_api_service.py *)
| DatabaseError     (* database/db_layer.py *)
| ValidationError   (* pydantic *)
| ValueError
| TypeError
| AttributeError
| RequestError      (* httpx: timeouts, connection errors *)
| HTTPStatusError   (* httpx: raise_for_status; not a RequestError *)
| JSONDecodeError   (* response.json() on a body that is not JSON *)
| APIError.         (* postgrest: the store rejected or failed the request *)

Definition exn_class_eqb (a b : exn_class) : bool :=
  match a, b with
  | HNAPIError, HNAPIError | DatabaseError, DatabaseError
  | ValidationError, ValidationError | ValueError, ValueError
  | TypeError, TypeError | AttributeError, AttributeError
  | RequestError, RequestError | HTTPStatusError, HTTPStatusError
  | JSONDecodeError, JSONDecodeError | APIError, APIError => true
  | _, _ => false
  end.

(** An exception object: its class and [str(e)]. *)
Record exn : Type := Exn { class_of : exn_class; str_of : string }.

Inductive result (A : Type) : Type :=
| Ok (a : A)
| Raise (e : exn).
Arguments Ok {A} a.
Arguments Raise {A} e.

(** ** The record store's tables *)

(** A row of [stories]; [id] is assigned by the store.  [created_time] holds
    the ISO text the code sends, or null. *)
Record StoryRow : Type := {
  id : Z;
  story_hn_id : Z;
  title : option string;
  kids_count : Z;
  month : string;
  descendants_count : Z;
  score : Z;
  story_created_time : option string
}.

(** A row of [comments], with the columns the code reads or writes.
    [structured_data] and [email] are JSON values, [JNull] for SQL null. *)
Record CommentRow : Type := {
  hn_id : Z;
  story_id : Z;
  story_text : option string;
  created_time : option string;
  fetched_time : option string;
  processed_status : string;
  structured_data : json;
  email : json
}.

(** ** The forum API *)

Inductive http_body : Type :=
| Json (data : json)
| NotJson (err : string).     (* [err]: text of the decoder's exception *)

(** A response of the forum API, as far as the code looks at it.
    [status_err] is the text httpx puts in the [HTTPStatusError] of this
    response. *)
Record Response : Type := {
  status_code : Z;
  status_err : string;
  body : http_body
}.

(** What one [session.get] gives: a response, or a transport failure
    (timeout, connection error) with its text. *)
Inductive http_reply : Type :=
| Reply (response : Response)
| Transport (err : string).

(** ** The world outside the process *)

Record World : Type := {
  stories : list StoryRow;
  comments : list CommentRow;
  story_seq : Z;                 (* the next [id] the store hands out *)
  comments_hn_id_unique : bool;  (* schema: unique constraint on comments.hn_id *)
  db_calls : nat;                (* [execute()] calls made so far *)
  db_fault : nat -> option string;
      (* [db_fault n = Some msg]: the n-th [execute()] fails with [msg] *)
  llm_calls : nat;
  llm : nat -> string -> option dict;
      (* the n-th model call on a prompt text: the validated dictionary, or
         nothing when the call, the JSON parse or the validation failed *)
  http_calls : nat;
  http : nat -> Z -> http_reply
      (* the reply to the n-th request, asking for the given item *)
}.

Definition with_tables (st : list StoryRow) (cs : list CommentRow) (seq : Z)
    (w : World) : World :=
  {| stories := st; comments := cs; story_seq := seq;
     comments_hn_id_unique := comments_hn_id_unique w;
     db_calls := db_calls w; db_fault := db_fault w;
     llm_calls := llm_calls w; llm := llm w;
     http_calls := http_calls w; http := http w |}.

Definition set_comments (cs : list CommentRow) (w : World) : World :=
  with_tables (stories w) cs (story_seq w) w.

Definition tick_db (w : World) : World :=
  {| stories := stories w; comments := comments w; story_seq := story_seq w;
     comments_hn_id_unique := comments_hn_id_unique w;
     db_calls := S (db_calls w); db_fault := db_fault w;
     llm_calls := llm_calls w; llm := llm w;
     http_calls := http_calls w; http := http w |}.

Definition tick_llm (w : World) : World :=
  {| stories := stories w; comments := comments w; story_seq := story_seq w;
     comments_hn_id_unique := comments_hn_id_unique w;
     db_calls := db_calls w; db_fault := db_fault w;
     llm_calls := S (llm_calls w); llm := llm w;
     http_calls := http_calls w; http := http w |}.

Definition tick_http (w : World) : World :=
  {| stories := stories w; comments := comments w; story_seq := story_seq w;
     comments_hn_id_unique := comments_hn_id_unique w;
     db_calls := db_calls w; db_fault := db_fault w;
     llm_calls := llm_calls w; llm := llm w;
     http_calls := S (http_calls w); http := http w |}.

(** ** Computations that may raise and that act on the world *)

Definition M (A : Type) : Type := World -> result A * World.

Definition ret {A : Type} (a : A) : M A := fun w => (Ok a, w).

Definition raise {A : Type} (e : exn) : M A := fun w => (Raise e, w).

Definition bind {A B : Type} (m : M A) (k : A -> M B) : M B :=
  fun w =>
    match m w with
    | (Ok a, w') => k a w'
    | (Raise e, w') => (Raise e, w')
    end.

(** [try: m  except Exception as e: h e] *)
Definition try_except {A : Type} (m : M A) (h : exn -> M A) : M A :=
  fun w =>
    match m w with
    | (Ok a, w') => (Ok a, w')
    | (Raise e, w') => h e w'
    end.

(** [try: m  except (C1, C2, ...) as e: h e]: other classes pass through. *)
Definition try_except_only {A : Type} (classes : list exn_class)
    (m : M A) (h : exn -> M A) : M A :=
  fun w =>
    match m w with
    | (Ok a, w') => (Ok a, w')
    | (Raise e, w') =>
        if existsb (exn_class_eqb (class_of e)) classes
        then h e w' else (Raise e, w')
    end.

Declare Scope py_scope.
Delimit Scope py_scope with py.
Notation "x <- m ;; k" := (bind m (fun x => k))
  (at level 61, m at next level, right associativity) : py_scope.
Notation "m ;;; k" := (bind m (fun _ => k))
  (at level 61, right associativity) : py_scope.
Local Open Scope py_scope.

(* --------------------------------------------------------------------- *)
(** ** The store client: what one [....execute()] does *)

(** Text of the store's answer to a unique-constraint violation; only the
    SQLSTATE is kept. *)
Definition unique_violation : string := "23505".

(** Text of the store's answer to [ON CONFLICT (hn_id)] when no unique
    constraint covers the column. *)
Definition no_conflict_target : string := "42P10".

(** One [execute()]: the call is counted; when the world makes it fail it
    raises an [APIError] and leaves the tables as they are, otherwise the
    request [op] runs on the tables. *)
Definition execute {A : Type} (op : M A) : M A :=
  fun w =>
    match db_fault w (db_calls w) with
    | Some msg => (Raise (Exn APIError msg), tick_db w)
    | None => op (tick_db w)
    end.

(** [table('stories').select('*').eq('hn_id', hn_id)] *)
Definition select_stories_by_hn_id (h : Z) : M (list StoryRow) :=
  fun w => (Ok (filter (fun r => (story_hn_id r =? h)%Z) (stories w)), w).

(** [table('stories').insert(story_data)]: the store assigns [id] and
    answers with the inserted row. *)
Definition insert_story (story_data : StoryRow) : M (list StoryRow) :=
  fun w =>
    let row := {| id := story_seq w;
                  story_hn_id := story_hn_id story_data;
                  title := title story_data;
                  kids_count := kids_count story_data;
                  month := month story_data;
                  descendants_count := descendants_count story_data;
                  score := score story_data;
                  story_created_time := story_created_time story_data |} in
    (Ok [row], with_tables (stories w ++ [row]) (comments w)
                           (story_seq w + 1)%Z w).

(** [table('comments').select('*').eq('hn_id', hn_id)] *)
Definition select_comments_by_hn_id (h : Z) : M (list CommentRow) :=
  fun w => (Ok (filter (fun c => (hn_id c =? h)%Z) (comments w)), w).

(** [table('comments').select('*').eq('processed_status', status).limit(limit)] *)
Definition select_comments_by_status (status : string) (limit : nat)
    : M (list CommentRow) :=
  fun w =>
    (Ok (firstn limit
           (filter (fun c => processed_status c =? status) (comments w))), w).

(** The dictionary [update_data] of [update_comment_status]:
    ["processed_status"] is always there, the other two keys may be absent. *)
Record UpdateData : Type := {
  upd_processed_status : string;
  upd_structured_data : option json;
  upd_email : option json
}.

(** The effect of the update on one row: the columns named in
    [update_data] are overwritten, the others are kept. *)
Definition apply_update (u : UpdateData) (c : CommentRow) : CommentRow :=
  {| hn_id := hn_id c;
     story_id := story_id c;
     story_text := story_text c;
     created_time := created_time c;
     fetched_time := fetched_time c;
     processed_status := upd_processed_status u;
     structured_data :=
       match upd_structured_data u with
       | Some v => v
       | None => structured_data c
       end;
     email :=
       match upd_email u with
       | Some v => v
       | None => email c
       end |}.

(** [table('comments').update(update_data).eq('hn_id', comment_id)]:
    every row with that [hn_id] is updated; the answer lists them. *)
Definition update_comments_by_hn_id (u : UpdateData) (h : Z)
    : M (list CommentRow) :=
  fun w =>
    let hit := fun c => (hn_id c =? h)%Z in
    (Ok (map (apply_update u) (filter hit (comments w))),
     set_comments
       (map (fun c => if hit c then apply_update u c else c) (comments w)) w).

(** [h] is the [hn_id] of a row of the table. *)
Definition hn_id_taken (h : Z) (table : list CommentRow) : bool :=
  existsb (fun c => (hn_id c =? h)%Z) table.

(** No row of the batch collides with the table or with an earlier row of
    the batch. *)
Fixpoint no_collision (table batch : list CommentRow) : bool :=
  match batch with
  | [] => true
  | c :: rest =>
      negb (hn_id_taken (hn_id c) table) && no_collision (table ++ [c]) rest
  end.

(** [table('comments').insert(rows)]: one statement.  Under the unique
    constraint a collision rejects the whole statement; otherwise all rows
    are stored and returned. *)
Definition insert_comments (rows : list CommentRow) : M (list CommentRow) :=
  fun w =>
    if comments_hn_id_unique w && negb (no_collision (comments w) rows)
    then (Raise (Exn APIError unique_violation), w)
    else (Ok rows, set_comments (comments w ++ rows) w).

(** [table('comments').upsert(row, on_conflict='hn_id',
    ignore_duplicates=True)]: a row whose [hn_id] is taken is skipped and
    not returned. *)
Definition upsert_comment_ignore (row : CommentRow) : M (list CommentRow) :=
  fun w =>
    if negb (comments_hn_id_unique w)
    then (Raise (Exn APIError no_conflict_target), w)
    else if hn_id_taken (hn_id row) (comments w)
    then (Ok [], w)
    else (Ok [row], set_comments (comments w ++ [row]) w).

(* --------------------------------------------------------------------- *)
(** ** database/db_layer.py: [HNDatabase] *)

(** [create_story]: [created_time] arrives already in ISO form (or [None]). *)
Definition create_story (hn_id : Z) (title : option string) (kids_count : Z)
    (month : string) (descendants_count score : Z)
    (created_time : option string) : M StoryRow :=
  try_except
    (let story_data :=
       {| id := 0%Z;              (* not sent; the store assigns it *)
          story_hn_id := hn_id;
          title := title;
          kids_count := kids_count;
          month := month;
          descendants_count := descendants_count;
          score := score;
          story_created_time := created_time |} in
     response <- execute (select_stories_by_hn_id hn_id) ;;
     match response with
     | existing :: _ => ret existing
     | [] =>
         response <- execute (insert_story story_data) ;;
         match response with
         | created :: _ => ret created
         | [] => raise (Exn DatabaseError "Failed to create story")
         end
     end)
    (fun e => raise (Exn DatabaseError ("Error creating story: " ++ str_of e))).

(** [create_comment] *)
Definition create_comment (hn_id story_id : Z) (story_text : option string)
    (structured_data : json) (created_time : option string) : M CommentRow :=
  try_except
    (let comment_data :=
       {| hn_id := hn_id;
          story_id := story_id;
          story_text := story_text;
          created_time := created_time;
          fetched_time := created_time;
          processed_status := "pending";
          structured_data := structured_data;
          email := JNull |} in
     response <- execute (upsert_comment_ignore comment_data) ;;
     match response with
     | created :: _ => ret created
     | [] => raise (Exn DatabaseError "Failed to create comment")
     end)
    (fun e => raise (Exn DatabaseError ("Error creating comment: " ++ str_of e))).

(** [get_comments_by_hn_id] *)
Definition get_comments_by_hn_id (hn_id : Z) : M (list CommentRow) :=
  try_except
    (response <- execute (select_comments_by_hn_id hn_id) ;;
     ret response)
    (fun e => raise (Exn DatabaseError ("Error fetching comments: " ++ str_of e))).

(** [get_pending_comments] *)
Definition get_pending_comments (limit : nat) : M (list CommentRow) :=
  try_except
    (response <- execute (select_comments_by_status "pending" limit) ;;
     ret response)
    (fun e => raise (Exn DatabaseError ("Error fetching comments: " ++ str_of e))).

(** The dictionary [update_comment_status] builds before the request;
    [structured_data = None] is Python's [None]. *)
Definition build_update_data (status : string) (structured_data : option dict)
    : UpdateData :=
  match structured_data with
  | Some d =>
      {| upd_processed_status := status;
         upd_structured_data := Some (JObj d);
         upd_email :=
           if negb (is_None (dict_get "email" d))
           then Some (dict_get "email" d) else None |}
  | None =>
      (* Explicitly clear when processing fails *)
      {| upd_processed_status := status;
         upd_structured_data := Some JNull;
         upd_email := Some JNull |}
  end.

(** [update_comment_status] *)
Definition update_comment_status (comment_id : Z) (status : string)
    (structured_data : option dict) : M bool :=
  try_except
    (let update_data := build_update_data status structured_data in
     response <- execute (update_comments_by_hn_id update_data comment_id) ;;
     ret (0 <? List.length response)%nat)
    (fun e =>
       raise (Exn DatabaseError ("Error updating comment status: " ++ str_of e))).

(** [batch_create_comments] *)
Definition batch_create_comments (comments_data : list CommentRow) : M Z :=
  try_except
    (match comments_data with
     | [] => ret 0%Z
     | _ :: _ =>
         response <- execute (insert_comments comments_data) ;;
         let inserted_count := Z.of_nat (List.length response) in
         ret inserted_count
     end)
    (fun e =>
       raise (Exn DatabaseError ("Error batch creating comments: " ++ str_of e))).

(* --------------------------------------------------------------------- *)
(** ** services/hn_api_service.py: [HNAPIService] *)

(** [await self.session.get(f"/item/{item_id}.json")]: the reply of the
    world, a transport failure being httpx's [RequestError]. *)
Definition session_get (item_id : Z) : M Response :=
  fun w =>
    match http w (http_calls w) item_id with
    | Reply response => (Ok response, tick_http w)
    | Transport err => (Raise (Exn RequestError err), tick_http w)
    end.

(** [response.is_success]: a status in 200..299. *)
Definition is_success (response : Response) : bool :=
  ((200 <=? status_code response) && (status_code response <? 300))%Z.

(** [response.raise_for_status()] *)
Definition raise_for_status (response : Response) : M unit :=
  if is_success response then ret tt
  else raise (Exn HTTPStatusError (status_err response)).

(** [response.json()] *)
Definition response_json (response : Response) : M json :=
  match body response with
  | Json data => ret data
  | NotJson err => raise (Exn JSONDecodeError err)
  end.

(** [fetch_story] *)
Definition fetch_story (story_id : Z) : M json :=
  try_except_only [RequestError]
    (response <- session_get story_id ;;
     if (status_code response =? 404)%Z
     then raise (Exn HNAPIError
                   ("Story " ++ PyStr.of_int story_id ++ " not found or deleted"))
     else
       raise_for_status response ;;;
       data <- response_json response ;;
       ret (if truthy data then data else JNull))
    (fun e => raise (Exn HNAPIError ("API request failed: " ++ str_of e))).

(** [fetch_comment] *)
Definition fetch_comment (comment_id : Z) : M json :=
  try_except_only [RequestError]
    (response <- session_get comment_id ;;
     if (status_code response =? 404)%Z
     then raise (Exn HNAPIError
                   ("Comment " ++ PyStr.of_int comment_id
                    ++ " not found or deleted"))
     else
       raise_for_status response ;;;
       data <- response_json response ;;
       ret (if truthy data then data else JNull))
    (fun e => raise (Exn HNAPIError ("API request failed: " ++ str_of e))).

(** [v.get(key)] on a value that need not be a dictionary. *)
Definition py_get (v : json) (key : string) : M json :=
  match v with
  | JObj d => ret (dict_get key d)
  | _ => raise (Exn AttributeError
                  ("'" ++ type_name v ++ "' object has no attribute 'get'"))
  end.

(** The body of the loop of [fetch_comments_batch] for one ID;
    [valid_comments] is the list built so far, the result is the list after
    this round ([continue] leaves it as it is). *)
Definition fetch_comments_step (comment_id : Z) (valid_comments : list json)
    : M (list json) :=
  try_except_only [ValidationError; HNAPIError]
    (raw_valid_comment <- fetch_comment comment_id ;;
     if negb (truthy raw_valid_comment) then ret valid_comments
     else
       deleted <- py_get raw_valid_comment "deleted" ;;
       if is_True deleted then ret valid_comments
       else ret (valid_comments ++ [raw_valid_comment])%list)
    (fun _ => ret valid_comments).

Fixpoint fetch_comments_loop (comment_ids : list Z) (valid_comments : list json)
    : M (list json) :=
  match comment_ids with
  | [] => ret valid_comments
  | comment_id :: rest =>
      valid_comments' <- fetch_comments_step comment_id valid_comments ;;
      fetch_comments_loop rest valid_comments'
  end.

(** [fetch_comments_batch] *)
Definition fetch_comments_batch (comment_ids : list Z) : M (list json) :=
  fetch_comments_loop comment_ids [].

(* --------------------------------------------------------------------- *)
(** ** services/processing_service.py: [ClaudeProcessingService] *)

(** The two entities, as the source spells them. *)
Definition ent_slash : string := "&#x2F;".
Definition ent_amp : string := "&amp;".

(** [raw_text.replace('&#x2F;', '/').replace('&amp;', '&')] *)
Definition clean_str (raw_text : string) : string :=
  PyStr.replace ent_amp "&" (PyStr.replace ent_slash "/" raw_text).

(** [_clean_html_text].  A row whose text is null gives [raw_text = None];
    [None.replace] raises, the handler logs and returns [raw_text]. *)
Definition _clean_html_text (raw_text : option string) : option string :=
  match raw_text with
  | Some s => Some (clean_str s)
  | None => None
  end.

(** How an f-string prints a text that may be [None]. *)
Definition fmt (text : option string) : string :=
  match text with
  | Some s => s
  | None => "None"
  end.

(** [_extract_job_data_with_claude]: one model call on the fixed
    instructions followed by the text; any failure of the call, of
    [json.loads] or of the validation gives [None].  The world's [llm]
    stands for the call, the parse and the validation together and is
    handed the text that follows the instructions. *)
Definition _extract_job_data_with_claude (cleaned_text : option string)
    : M (option dict) :=
  fun w => (Ok (llm w (llm_calls w) (fmt cleaned_text)), tick_llm w).

(** [_update_comment_with_results]; callers that omit [status] pass
    [default_status]. *)
Definition default_status : string := "completed".

Definition _update_comment_with_results (comment_id : Z)
    (structured_data : option dict) (status : string) : M bool :=
  try_except
    (update_comment_status comment_id status structured_data)
    (fun _ =>
       try_except
         (update_comment_status comment_id "error" None ;;; ret tt)
         (fun _ => ret tt) ;;;
       ret false).

(** The dictionary [process_pending_comments] returns; during the loop it
    holds the four local variables. *)
Record Summary : Type := {
  processed_count : Z;
  successful_count : Z;
  failed_count : Z;
  errors : list exn
}.

Definition add_successful (s : Summary) : Summary :=
  {| processed_count := processed_count s;
     successful_count := successful_count s + 1;
     failed_count := failed_count s;
     errors := errors s |}.

Definition add_failed (s : Summary) : Summary :=
  {| processed_count := processed_count s;
     successful_count := successful_count s;
     failed_count := failed_count s + 1;
     errors := errors s |}.

Definition add_error (e : exn) (s : Summary) : Summary :=
  {| processed_count := processed_count s;
     successful_count := successful_count s;
     failed_count := failed_count s;
     errors := errors s ++ [e] |}.

(** One round of the loop of [process_pending_comments].  Nothing that
    follows a counter update inside the [try] can raise, so the handler
    sees the counters of the start of the round. *)
Definition process_pending_step (comment : CommentRow) (s : Summary)
    : M Summary :=
  try_except
    (let cleaned_comment := _clean_html_text (story_text comment) in
     structured_data <- _extract_job_data_with_claude cleaned_comment ;;
     match structured_data with
     | None =>
         _update_comment_with_results (hn_id comment) None "error" ;;;
         ret (add_failed s)
     | Some d =>
         value <- _update_comment_with_results (hn_id comment) (Some d)
                    "completed" ;;
         if value then ret (add_successful s) else ret (add_failed s)
     end)
    (fun e => ret (add_error e s)).

Fixpoint process_pending_loop (pending_comments : list CommentRow)
    (s : Summary) : M Summary :=
  match pending_comments with
  | [] => ret s
  | comment :: rest =>
      s' <- process_pending_step comment s ;;
      process_pending_loop rest s'
  end.

(** [process_pending_comments] *)
Definition process_pending_comments : M Summary :=
  pending_comments <- get_pending_comments 1000 ;;
  process_pending_loop pending_comments
    {| processed_count := 0; successful_count := 0; failed_count := 0;
       errors := [] |}.

(** The dictionary [process_single_comment] returns. *)
Inductive SingleResult : Type :=
| Success (hn_id : Z) (extracted_data : option dict) (database_updated : bool)
    (* ["success": True, ...] *)
| Failure (hn_id : Z) (error : string).
    (* ["success": False, "hn_id": ..., "error": ...] *)

(** [text[:200]], only evaluated for a log line: raises on [None]. *)
Definition check_sliceable (text : option string) : M unit :=
  match text with
  | Some _ => ret tt
  | None => raise (Exn TypeError "'NoneType' object is not subscriptable")
  end.

(** [process_single_comment] *)
Definition process_single_comment (hn_id0 : Z) : M SingleResult :=
  try_except
    (comments <- get_comments_by_hn_id hn_id0 ;;
     match comments with
     | [] =>
         raise (Exn ValueError
                  ("No comment found with HN ID " ++ PyStr.of_int hn_id0))
     | comment :: _ =>
         let raw_text := story_text comment in
         check_sliceable raw_text ;;;
         let cleaned_comment := _clean_html_text raw_text in
         check_sliceable cleaned_comment ;;;
         structured_data <- _extract_job_data_with_claude cleaned_comment ;;
         update_success <- _update_comment_with_results (hn_id comment)
                             structured_data default_status ;;
         ret (Success hn_id0 structured_data update_success)
     end)
    (fun e => ret (Failure hn_id0 (str_of e))).

(* --------------------------------------------------------------------- *)
(** ** The normalisation as the specification words it *)

(** One pass over the input in which every occurrence of [&#x2F;] becomes
    [/], every occurrence of [&amp;] becomes [&], and every other character
    is kept. *)
Equations? normalize_spec (s : string) : string by wf (String.length s) lt :=
  normalize_spec EmptyString := EmptyString;
  normalize_spec (String c t) with PyStr.startswith ent_slash (String c t) := {
    | true := String "/" (normalize_spec (PyStr.drop 5 t))
    | false with PyStr.startswith ent_amp (String c t) := {
      | true := String "&" (normalize_spec (PyStr.drop 4 t))
      | false := String c (normalize_spec t) } }.
Proof.
  - PyStr.drop_shorter 5 t.
  - PyStr.drop_shorter 4 t.
Qed.

(* --------------------------------------------------------------------- *)
(** ** Predicates used in the statements *)

(** The [n] store requests that follow in world [w] do not fail. *)
Definition db_reliable (n : nat) (w : World) : Prop :=
  forall k, k < n -> db_fault w (db_calls w + k) = None.

(** ** Sample worlds, for running the code on concrete inputs *)

Definition no_fault : nat -> option string := fun _ => None.

Definition silent_llm : nat -> string -> option dict := fun _ _ => None.

(** The reply with the given status, error text and JSON body. *)
Definition reply (code : Z) (err : string) (data : json) : http_reply :=
  Reply {| status_code := code; status_err := err; body := Json data |}.

Definition no_item : nat -> Z -> http_reply :=
  fun _ _ => reply 200 "" JNull.

(** A world at rest: the given tables, a store that answers, the given
    model and forum. *)
Definition world_of (st : list StoryRow) (cs : list CommentRow)
    (unique : bool) (model : nat -> string -> option dict)
    (forum : nat -> Z -> http_reply) : World :=
  {| stories := st; comments := cs;
     story_seq := 1 + Z.of_nat (List.length st);
     comments_hn_id_unique := unique;
     db_calls := 0; db_fault := no_fault;
     llm_calls := 0; llm := model;
     http_calls := 0; http := forum |}.

(** A comment as ingestion stores it: pending, nothing extracted yet. *)
Definition pending_comment (h : Z) (text : string) : CommentRow :=
  {| hn_id := h; story_id := 1; story_text := Some text;
     created_time := None; fetched_time := None;
     processed_status := "pending";
     structured_data := JNull; email := JNull |}.

(** A forum comment payload. *)
Definition comment_payload (h : Z) (text : string) : json :=
  JObj [("id", JNum h); ("type", JStr "comment"); ("text", JStr text)].

Definition deleted_payload (h : Z) : json :=
  JObj [("id", JNum h); ("type", JStr "comment"); ("deleted", JBool true)].

(** A payload the batch fetcher may keep: a dictionary whose ["deleted"]
    entry is not [True]. *)
Definition not_deleted (p : json) : Prop :=
  exists d : dict, p = JObj d /\ dict_get "deleted" d <> JBool true.

(** The handler of the batch loop takes these classes. *)
Definition skipped_class (c : exn_class) : bool :=
  existsb (exn_class_eqb c) [ValidationError; HNAPIError].

(** The thread of the end-to-end scenario: items 1 and 3 are comments,
    item 2 is marked deleted. *)
Definition thread_forum : nat -> Z -> http_reply :=
  fun _ item =>
    if (item =? 1)%Z then reply 200 "" (comment_payload 1 "Acme is hiring")
    else if (item =? 2)%Z then reply 200 "" (deleted_payload 2)
    else if (item =? 3)%Z then reply 200 "" (comment_payload 3 "Bolt")
    else reply 200 "" JNull.

(** A forum whose server fails on item 1 and serves item 2. *)
Definition failing_forum : nat -> Z -> http_reply :=
  fun _ item =>
    if (item =? 1)%Z
    then reply 500 "Server error '500 Internal Server Error'" JNull
    else reply 200 "" (comment_payload item "Bolt").

(** A forum that answers 404 for every item. *)
Definition missing_forum : nat -> Z -> http_reply :=
  fun _ _ => reply 404 "Client error '404 Not Found'" JNull.

(** The two shapes an extraction outcome may have in a stored row. *)
Definition completed_shape (c : CommentRow) : Prop :=
  processed_status c = "completed" /\ exists d : dict, structured_data c = JObj d.

Definition error_shape (c : CommentRow) : Prop :=
  processed_status c = "error" /\ structured_data c = JNull /\ email c = JNull.

(** The pending rows [process_pending_comments] works on. *)
Definition pending_rows (w : World) : list CommentRow :=
  firstn 1000 (filter (fun c => processed_status c =? "pending") (comments w)).

(** Comments the loop has dealt with, one way or another. *)
Definition settled (s : Summary) : Z :=
  successful_count s + failed_count s + Z.of_nat (List.length (errors s)).

(** A row after a step is the row before, or carries one of the two
    outcome shapes. *)
Definition kept_or_shaped (old new : CommentRow) : Prop :=
  new = old \/ completed_shape new \/ error_shape new.

(** What the outcome of an extraction looks like in a row. *)
Definition outcome (c : CommentRow) : string * json * json :=
  (processed_status c, structured_data c, email c).

(** [avoids a b p]: neither [a] nor [b] occurs in [p]. *)
Fixpoint avoids (a b : ascii) (p : string) : bool :=
  match p with
  | EmptyString => true
  | String c p' =>
      negb (Ascii.eqb c a) && negb (Ascii.eqb c b) && avoids a b p'
  end.

(** Replies the batch loop gets past: a 404, a transport failure, or a
    successful response whose body is JSON [null] or a dictionary. *)
Definition benign (r : http_reply) : Prop :=
  match r with
  | Transport _ => True
  | Reply response =>
      status_code response = 404%Z \/
      (is_success response = true /\
       exists data, body response = Json data /\
                    (data = JNull \/ exists d, data = JObj d))
  end.

(* --------------------------------------------------------------------- *)
(** ** database/db_layer.py: the remaining read operations *)

(** [get_story_by_hn_id] *)
Definition get_story_by_hn_id (hn_id : Z) : M (option StoryRow) :=
  try_except
    (response <- execute (select_stories_by_hn_id hn_id) ;;
     ret (match response with
          | first :: _ => Some first
          | [] => None
          end))
    (fun e => raise (Exn DatabaseError ("Error fetching story: " ++ str_of e))).

(** [table("comments").select("*").eq("story_id", story_id)] *)
Definition select_comments_by_story_id (sid : Z) : M (list CommentRow) :=
  fun w => (Ok (filter (fun c => (story_id c =? sid)%Z) (comments w)), w).

(** [get_comments_by_story_id] *)
Definition get_comments_by_story_id (story_id : Z) : M (list CommentRow) :=
  try_except
    (response <- execute (select_comments_by_story_id story_id) ;;
     ret response)
    (fun e => raise (Exn DatabaseError ("Error fetching comments: " ++ str_of e))).

(** [table("stories").select("id").eq("month", month)]: the [id] column of
    the stories of that month. *)
Definition select_story_ids_by_month (m : string) : M (list Z) :=
  fun w => (Ok (map id (filter (fun r => month r =? m) (stories w))), w).

(** [table("comments").select("*").eq("processed_status", "completed")
    .eq("story_id", story_id)] *)
Definition select_completed_of_story (sid : Z) : M (list CommentRow) :=
  fun w =>
    (Ok (filter (fun c => (story_id c =? sid)%Z)
           (filter (fun c => processed_status c =? "completed") (comments w))),
     w).

(** [get_completed_jobs] *)
Definition get_completed_jobs (month : string) : M (list CommentRow) :=
  try_except
    (story_response <- execute (select_story_ids_by_month month) ;;
     match story_response with
     | [] => ret []
     | story_id :: _ =>
         response <- execute (select_completed_of_story story_id) ;;
         ret response
     end)
    (fun e => raise (Exn DatabaseError ("Error fetching comments: " ++ str_of e))).

(** ** Predicates on tables *)

(** The rows of a table that carry forum ID [h]. *)
Definition rows_with (h : Z) (table : list CommentRow) : list CommentRow :=
  filter (fun c => (hn_id c =? h)%Z) table.

(** The columns an extraction never writes. *)
Definition identity_of (c : CommentRow)
    : Z * Z * option string * option string * option string :=
  (hn_id c, story_id c, story_text c, created_time c, fetched_time c).

(** The outcome of a call raises nothing but exceptions of class [cls]. *)
Definition raises_only {A : Type} (cls : exn_class) (r : result A) : Prop :=
  match r with
  | Ok _ => True
  | Raise e => class_of e = cls
  end.

(** A sample stored story. *)
Definition sample_story (i h : Z) (m : string) : StoryRow :=
  {| id := i; story_hn_id := h; title := Some "Who is hiring?";
     kids_count := 3; month := m; descendants_count := 3; score := 10;
     story_created_time := None |}.

(** A sample stored comment of story [sid] with the given status. *)
Definition sample_comment (h sid : Z) (status : string) : CommentRow :=
  {| hn_id := h; story_id := sid; story_text := Some "Acme is hiring";
     created_time := None; fetched_time := None;
     processed_status := status;
     structured_data := JNull; email := JNull |}.

(* --------------------------------------------------------------------- *)
(** ** Predicates on fetches *)

(** What a fetch of one item can come to: [None] or a truthy JSON value,
    or one of three exception classes. *)
Definition fetch_outcome (r : result json) : Prop :=
  match r with
  | Ok v => v = JNull \/ truthy v = true
  | Raise e =>
      class_of e = HNAPIError \/ class_of e = HTTPStatusError \/
      class_of e = JSONDecodeError
  end.

(** [p] is the JSON body of a successful reply that world [w] gives to a
    request for one of [ids], the request being one of the [n] that follow
    request number [start]. *)
Definition served (w : World) (ids : list Z) (start n : nat) (p : json)
    : Prop :=
  exists (k : nat) (item : Z) (response : Response),
    start <= k < start + n /\ In item ids /\
    http w k item = Reply response /\
    is_success response = true /\ body response = Json p.

(** A stored comment without text. *)
Definition textless_comment (h : Z) : CommentRow :=
  {| hn_id := h; story_id := 1; story_text := None;
     created_time := None; fetched_time := None;
     processed_status := "pending";
     structured_data := JNull; email := JNull |}.

(** How bulk mode may change a row, [pending] being the rows it fetched:
    the columns that identify the row stay; the row is kept, or carries
    one of the two outcome shapes; and a row whose forum ID is not the ID
    of a fetched row is kept. *)
Definition bulk_change (pending : list CommentRow) (old new : CommentRow)
    : Prop :=
  identity_of new = identity_of old /\
  kept_or_shaped old new /\
  (hn_id_taken (hn_id old) pending = false -> new = old).

(* --------------------------------------------------------------------- *)
(** ** services/cron_service.py: [HNCronService] *)

(** What [DatabaseStoryData.model_dump()] hands to [create_story] as
    keyword arguments. *)
Record StoryData : Type := {
  sd_hn_id : Z;
  sd_title : option string;
  sd_kids_count : Z;
  sd_month : string;
  sd_descendants_count : Z;
  sd_score : Z;
  sd_created_time : option string
}.

(** The module [models/hn_models.py] is not part of the sources at hand.
    Its four classes are taken as given: each is a pure function that
    returns a value or raises.  [HNStoryResponse] and [HNCommentResponse]
    stand for the validating constructors called on a payload, [kids] for
    the attribute [hn_story.kids] (a list, or [None]), [from_hn_story] and
    [from_hn_comment] for the transformation followed by [model_dump()]. *)
Record Models : Type := {
  HNStory : Type;
  HNComment : Type;
  HNStoryResponse : json -> result HNStory;
  kids : HNStory -> option (list Z);
  from_hn_story : HNStory -> result StoryData;
  HNCommentResponse : json -> result HNComment;
  from_hn_comment : HNComment -> Z -> result CommentRow
}.

(** A pure call that may raise. *)
Definition call {A : Type} (r : result A) : M A := fun w => (r, w).

(** The dictionary [process_hiring_thread] returns. *)
Record HiringSummary : Type := {
  summary_story_id : Z;
  story_db_id : Z;
  story_saved : bool;
  comments_fetched : Z;
  comments_saved : Z;
  summary_errors : list string
}.

Section Cron.

Variable models : Models.

(** The loop that validates and transforms the fetched payloads. *)
Fixpoint validate_comments (raw_comments : list json) (story_db_id0 : Z)
    (validated_comments : list CommentRow) : M (list CommentRow) :=
  match raw_comments with
  | [] => ret validated_comments
  | comment :: rest =>
      hn_comment <- call (HNCommentResponse models comment) ;;
      db_comment <- call (from_hn_comment models hn_comment story_db_id0) ;;
      validate_comments rest story_db_id0
        (validated_comments ++ [db_comment])%list
  end.

(** [process_hiring_thread].  Both handlers re-raise as [HNAPIError] with
    the same text, so they are one. *)
Definition process_hiring_thread (story_id0 : Z) : M HiringSummary :=
  try_except
    (response <- fetch_story story_id0 ;;
     hn_story <- call (HNStoryResponse models response) ;;
     db_story_data <- call (from_hn_story models hn_story) ;;
     saved_story <- create_story (sd_hn_id db_story_data)
                      (sd_title db_story_data) (sd_kids_count db_story_data)
                      (sd_month db_story_data)
                      (sd_descendants_count db_story_data)
                      (sd_score db_story_data)
                      (sd_created_time db_story_data) ;;
     let story_db_id0 := id saved_story in
     comment_ids <-
       match kids models hn_story with
       | Some ids => ret ids
       | None =>    (* [enumerate(None)] *)
           raise (Exn TypeError "'NoneType' object is not iterable")
       end ;;
     raw_comments <- fetch_comments_batch comment_ids ;;
     validated_comments <- validate_comments raw_comments story_db_id0 [] ;;
     saved_count <- batch_create_comments validated_comments ;;
     ret {| summary_story_id := story_id0;
            story_db_id := story_db_id0;
            story_saved := true;
            comments_fetched := Z.of_nat (List.length validated_comments);
            comments_saved := saved_count;
            summary_errors := [] |})
    (fun e => raise (Exn HNAPIError ("API request failed: " ++ str_of e))).

End Cron.

(* --------------------------------------------------------------------- *)
(** ** routers/stories.py *)

(** The endpoints build their service objects first; what follows models
    the handler once these exist.  Closing the forum session at the end
    of the ingestion endpoint changes no value and is left out. *)

Module Router.

(** What the ingestion endpoint answers. *)
Inductive HiringReply : Type :=
| HiringOk (message : string) (data : HiringSummary)    (* success: True *)
| HiringErr (error : string) (story_id : Z).            (* success: False *)

(** What [get_jobs] answers. *)
Inductive JobsReply : Type :=
| JobsOk (data : list CommentRow) (count : Z) (month : string)
| JobsErr (error : string).

(** What the bulk extraction endpoint answers. *)
Inductive PendingReply : Type :=
| PendingOk (message : string) (data : Summary)
| PendingErr (error : string).

(** What the single extraction endpoint answers. *)
Inductive SingleReply : Type :=
| SingleOk (message : string) (data : SingleResult)
| SingleErr (error : string) (hn_id : Z).

(** A handler: it acts on the world and answers; an exception never
    leaves it. *)
Definition handle {A R : Type} (m : M A) (ok : A -> R) (err : exn -> R)
    : World -> R * World :=
  fun w =>
    match m w with
    | (Ok a, w') => (ok a, w')
    | (Raise e, w') => (err e, w')
    end.

(** [test_process_hiring_thread] *)
Definition test_process_hiring_thread (models : Models) (story_id : Z)
    : World -> HiringReply * World :=
  handle (process_hiring_thread models story_id)
    (fun result =>
       HiringOk ("Processed hiring thread " ++ PyStr.of_int story_id) result)
    (fun e => HiringErr (str_of e) story_id).

(** [f"{n:02d}"] *)
Definition fmt_02d (n : Z) : string :=
  if ((0 <=? n) && (n <? 10))%Z then "0" ++ PyStr.of_int n
  else PyStr.of_int n.

(** [get_jobs].  [current_year] and [current_month] are what
    [datetime.now()] gives at the call; [month_value name] stands for
    [Month[name.upper()].value] of [utils/months.py], which is not part of
    the sources at hand: the number of the month, or nothing when the
    lookup raises [KeyError]. *)
Definition get_jobs (current_year current_month : Z)
    (month_value : string -> option Z) (month : option string)
    : World -> JobsReply * World :=
  let query (m : string) : World -> JobsReply * World :=
    handle (get_completed_jobs m)
      (fun jobs => JobsOk jobs (Z.of_nat (List.length jobs)) m)
      (fun e => JobsErr (str_of e)) in
  match month with
  | None =>
      query (PyStr.of_int current_year ++ "-" ++ fmt_02d current_month)
  | Some m =>
      if m =? "" then
        query (PyStr.of_int current_year ++ "-" ++ fmt_02d current_month)
      else if negb (PyStr.contains "-" m) then
        match month_value m with
        | Some value =>
            query (PyStr.of_int current_year ++ "-" ++ fmt_02d value)
        | None => fun w => (JobsErr ("Invalid month name: " ++ m), w)
        end
      else query m
  end.

(** [process_pending_comments] *)
Definition process_pending_comments : World -> PendingReply * World :=
  handle process_pending_comments
    (fun result => PendingOk "Processed all pending comments with Claude" result)
    (fun e => PendingErr (str_of e)).

(** [process_single_comment] *)
Definition process_single_comment (hn_id : Z) : World -> SingleReply * World :=
  handle (process_single_comment hn_id)
    (fun result =>
       SingleOk ("Processed comment " ++ PyStr.of_int hn_id ++ " with Claude")
         result)
    (fun e => SingleErr (str_of e) hn_id).

End Router.

(* --------------------------------------------------------------------- *)
(** ** Predicates and samples for the ingestion workflow *)

(** From [w] to [w'] the tables only grew: rows were appended, at most [n]
    of them to the stories, and no stored row was changed or dropped. *)
Definition grows (n : nat) (w w' : World) : Prop :=
  exists (new_stories : list StoryRow) (new_comments : list CommentRow),
    stories w' = (stories w ++ new_stories)%list /\
    List.length new_stories <= n /\
    comments w' = (comments w ++ new_comments)%list.

(** A computation that, run in any world, only makes the tables grow, by
    at most [n] stories. *)
Definition adds (n : nat) {A : Type} (m : M A) : Prop :=
  forall w, grows n w (snd (m w)).

(** The integers of a JSON array of integers. *)
Fixpoint ints_of (items : list json) : list Z :=
  match items with
  | JNum n :: rest => n :: ints_of rest
  | _ :: rest => ints_of rest
  | [] => []
  end.

(** A stand-in for [models/hn_models.py], for running the workflow: a
    story is its ID with its kids, a comment its ID with its text. *)
Definition sample_models : Models :=
  {| HNStory := Z * list Z;
     HNComment := Z * option string;
     HNStoryResponse := fun payload =>
       match payload with
       | JObj d =>
           match dict_get "id" d, dict_get "kids" d with
           | JNum n, JArr items => Ok (n, ints_of items)
           | JNum n, _ => Ok (n, [])
           | _, _ => Raise (Exn ValidationError "id: field required")
           end
       | _ => Raise (Exn TypeError "argument after ** must be a mapping")
       end;
     kids := fun s => Some (snd s);
     from_hn_story := fun s =>
       Ok {| sd_hn_id := fst s; sd_title := None;
             sd_kids_count := Z.of_nat (List.length (snd s));
             sd_month := "2025-09"; sd_descendants_count := 0;
             sd_score := 0; sd_created_time := None |};
     HNCommentResponse := fun payload =>
       match payload with
       | JObj d =>
           match dict_get "id" d, dict_get "text" d with
           | JNum n, JStr t => Ok (n, Some t)
           | JNum n, _ => Ok (n, None)
           | _, _ => Raise (Exn ValidationError "id: field required")
           end
       | _ => Raise (Exn TypeError "argument after ** must be a mapping")
       end;
     from_hn_comment := fun c sid =>
       Ok {| hn_id := fst c; story_id := sid; story_text := snd c;
             created_time := None; fetched_time := None;
             processed_status := "pending";
             structured_data := JNull; email := JNull |} |}.

(** The forum of the end-to-end scenario: story 40000001 with kids 1, 2
    and 3, item 2 being deleted. *)
Definition scenario_forum : nat -> Z -> http_reply :=
  fun n item =>
    if (item =? 40000001)%Z
    then reply 200 ""
           (JObj [("id", JNum 40000001); ("type", JStr "story");
                  ("kids", JArr [JNum 1; JNum 2; JNum 3])])
    else thread_forum n item.

(** A forum that serves story 40000001 with kids 1 and 2 and whose server
    fails on item 1. *)
Definition broken_thread_forum : nat -> Z -> http_reply :=
  fun n item =>
    if (item =? 40000001)%Z
    then reply 200 ""
           (JObj [("id", JNum 40000001); ("type", JStr "story");
                  ("kids", JArr [JNum 1; JNum 2])])
    else failing_forum n item.

(* ===================================================================== *)
(** * Part II: lemmas and theorems *)
(* ===================================================================== *)

(** ** Text normalisation *)

(* --------------------------------------------------------------------- *)
(** *** Unfolding lemmas for the two scans *)

Section Scans.

Import PyStr.

Lemma length_drop_le (n : nat) (s : string) :
  String.length (drop n s) <= String.length s.
Proof.
  revert s; induction n as [|n IH]; intros [|c t]; simpl; try lia.
  specialize (IH t); lia.
Qed.

Lemma replace_scan_nil (old new : string) :
  replace_scan old new "" = "".
Proof. now simp replace_scan. Qed.

Lemma replace_scan_hit (old new : string) (c : ascii) (t : string) :
  startswith old (String c t) = true ->
  replace_scan old new (String c t)
  = new ++ replace_scan old new (drop (String.length old - 1) t).
Proof.
  intros H. simp replace_scan. rewrite H. reflexivity.
Qed.

Lemma replace_scan_miss (old new : string) (c : ascii) (t : string) :
  startswith old (String c t) = false ->
  replace_scan old new (String c t) = String c (replace_scan old new t).
Proof.
  intros H. simp replace_scan. rewrite H. reflexivity.
Qed.

Lemma normalize_spec_slash (c : ascii) (t : string) :
  startswith ent_slash (String c t) = true ->
  normalize_spec (String c t) = String "/" (normalize_spec (drop 5 t)).
Proof.
  intros H. simp normalize_spec. rewrite H. reflexivity.
Qed.

Lemma normalize_spec_amp (c : ascii) (t : string) :
  startswith ent_slash (String c t) = false ->
  startswith ent_amp (String c t) = true ->
  normalize_spec (String c t) = String "&" (normalize_spec (drop 4 t)).
Proof.
  intros H1 H2. simp normalize_spec. rewrite H1.
  simp normalize_spec. rewrite H2. reflexivity.
Qed.

Lemma normalize_spec_other (c : ascii) (t : string) :
  startswith ent_slash (String c t) = false ->
  startswith ent_amp (String c t) = false ->
  normalize_spec (String c t) = String c (normalize_spec t).
Proof.
  intros H1 H2. simp normalize_spec. rewrite H1.
  simp normalize_spec. rewrite H2. reflexivity.
Qed.

End Scans.

(* --------------------------------------------------------------------- *)
(** *** The two [replace] calls in sequence agree with the single pass *)

Section Normalisation.

Import PyStr.

Lemma startswith_split (p s : string) :
  startswith p s = true -> s = p ++ drop (String.length p) s.
Proof.
  revert s; induction p as [|a p IH]; intros [|b s] H; simpl in *;
    try reflexivity; try discriminate.
  apply andb_true_iff in H as [Hab Hp].
  apply Ascii.eqb_eq in Hab; subst b.
  f_equal. now apply IH.
Qed.

(** Replacing [&#x2F;] by [/] cannot create or destroy, at the front of the
    text, a word in which neither [&] nor [/] occurs. *)
Lemma startswith_replace_slash (p t : string) :
  avoids "&" "/" p = true ->
  startswith p (replace_scan ent_slash "/" t) = startswith p t.
Proof.
  revert t; induction p as [|a p IH]; intros t Hp; [reflexivity|].
  simpl in Hp.
  apply andb_true_iff in Hp as [Ha Hp].
  apply andb_true_iff in Ha as [Ha1 Ha2].
  apply negb_true_iff in Ha1, Ha2.
  destruct t as [|d t].
  - rewrite replace_scan_nil. reflexivity.
  - destruct (startswith ent_slash (String d t)) eqn:E.
    + rewrite (replace_scan_hit _ _ _ _ E).
      pose proof (startswith_split _ _ E) as S.
      simpl in S. injection S as Hd _. subst d.
      simpl. rewrite Ha1, Ha2. reflexivity.
    + rewrite (replace_scan_miss _ _ _ _ E).
      simpl. rewrite (IH t Hp). reflexivity.
Qed.

Lemma clean_unfold (s : string) :
  clean_str s
  = replace_scan ent_amp "&" (replace_scan ent_slash "/" s).
Proof. reflexivity. Qed.

Lemma clean_nil : clean_str "" = "".
Proof. reflexivity. Qed.

Lemma clean_cons_slash (u : string) :
  clean_str (ent_slash ++ u) = String "/" (clean_str u).
Proof.
  rewrite !clean_unfold. unfold ent_slash at 2. simpl append.
  rewrite replace_scan_hit by reflexivity.
  simpl. rewrite replace_scan_miss by reflexivity.
  reflexivity.
Qed.

Lemma clean_cons_amp (u : string) :
  clean_str (ent_amp ++ u) = String "&" (clean_str u).
Proof.
  rewrite !clean_unfold. unfold ent_amp at 2. simpl append.
  do 5 (rewrite (replace_scan_miss ent_slash) by reflexivity).
  rewrite replace_scan_hit by reflexivity.
  reflexivity.
Qed.

Lemma clean_cons_other (c : ascii) (t : string) :
  startswith ent_slash (String c t) = false ->
  startswith ent_amp (String c t) = false ->
  clean_str (String c t) = String c (clean_str t).
Proof.
  intros H1 H2. rewrite !clean_unfold.
  rewrite (replace_scan_miss _ _ _ _ H1).
  rewrite replace_scan_miss; [reflexivity|].
  change (Ascii.eqb "&" c
          && startswith "amp;" (replace_scan ent_slash "/" t) = false).
  rewrite (startswith_replace_slash "amp;" t) by reflexivity.
  exact H2.
Qed.

Lemma clean_refines_spec_le (n : nat) :
  forall s, String.length s <= n -> clean_str s = normalize_spec s.
Proof.
  induction n as [|n IH]; intros [|c t] Hlen; simpl in Hlen;
    try (now simp normalize_spec); try lia.
  destruct (startswith ent_slash (String c t)) eqn:E1.
  - rewrite (normalize_spec_slash _ _ E1).
    pose proof (startswith_split _ _ E1) as S.
    change (drop (String.length ent_slash) (String c t)) with (drop 5 t) in S.
    rewrite S at 1. rewrite clean_cons_slash. f_equal.
    apply IH. pose proof (length_drop_le 5 t). lia.
  - destruct (startswith ent_amp (String c t)) eqn:E2.
    + rewrite (normalize_spec_amp _ _ E1 E2).
      pose proof (startswith_split _ _ E2) as S.
      change (drop (String.length ent_amp) (String c t)) with (drop 4 t) in S.
      rewrite S at 1. rewrite clean_cons_amp. f_equal.
      apply IH. pose proof (length_drop_le 4 t). lia.
    + rewrite (normalize_spec_other _ _ E1 E2).
      rewrite (clean_cons_other _ _ E1 E2). f_equal.
      apply IH. lia.
Qed.

End Normalisation.

Section Occurrences.

Import PyStr.

(** A word without [&] cannot start where an [&] stands, nor run past the
    end of [a] into one. *)
Lemma startswith_app_plain (p : string) :
  avoids "&" "&" p = true ->
  forall a x, startswith p (a ++ String "&" x) = startswith p a.
Proof.
  induction p as [|c p IH]; intros Hp a x; [reflexivity|].
  simpl in Hp. apply andb_true_iff in Hp as [Hc Hp].
  apply andb_true_iff in Hc as [Hc _]. apply negb_true_iff in Hc.
  destruct a as [|d a]; simpl.
  - rewrite Hc. reflexivity.
  - rewrite (IH Hp). reflexivity.
Qed.

(** Whether an entity starts a non-empty text does not depend on what
    follows the text, when that starts with [&]. *)
Lemma startswith_app_entity (p' : string) (c : ascii) (t x : string) :
  avoids "&" "&" p' = true ->
  startswith (String "&" p') (String c t ++ String "&" x)
  = startswith (String "&" p') (String c t).
Proof.
  intros Hp. simpl. rewrite (startswith_app_plain p' Hp). reflexivity.
Qed.

Lemma append_assoc (a b c : string) : (a ++ b) ++ c = a ++ (b ++ c).
Proof. induction a as [|x a IH]; simpl; [reflexivity|now rewrite IH]. Qed.

(** The normalisation of a text that is followed by [&...] is the
    normalisation of the text, followed by that of the rest. *)
Lemma clean_str_app_amp_le (n : nat) :
  forall a x, String.length a <= n ->
    clean_str (a ++ String "&" x) = clean_str a ++ clean_str (String "&" x).
Proof.
  induction n as [|n IH]; intros [|c t] x Hlen; simpl in Hlen;
    try reflexivity; try lia.
  destruct (startswith ent_slash (String c t)) eqn:E1.
  - pose proof (startswith_split _ _ E1) as S.
    change (drop (String.length ent_slash) (String c t)) with (drop 5 t) in S.
    rewrite S, append_assoc, !clean_cons_slash.
    rewrite IH by (pose proof (length_drop_le 5 t); lia).
    reflexivity.
  - destruct (startswith ent_amp (String c t)) eqn:E2.
    + pose proof (startswith_split _ _ E2) as S.
      change (drop (String.length ent_amp) (String c t)) with (drop 4 t) in S.
      rewrite S, append_assoc, !clean_cons_amp.
      rewrite IH by (pose proof (length_drop_le 4 t); lia).
      reflexivity.
    + rewrite (clean_cons_other _ _ E1 E2).
      change (String c t ++ String "&" x) with (String c (t ++ String "&" x)).
      rewrite clean_cons_other.
      * rewrite IH by lia. reflexivity.
      * change (String c (t ++ String "&" x))
          with (String c t ++ String "&" x).
        unfold ent_slash in *.
        rewrite startswith_app_entity by reflexivity. exact E1.
      * change (String c (t ++ String "&" x))
          with (String c t ++ String "&" x).
        unfold ent_amp in *.
        rewrite startswith_app_entity by reflexivity. exact E2.
Qed.

Lemma clean_str_app_amp (a x : string) :
  clean_str (a ++ String "&" x) = clean_str a ++ clean_str (String "&" x).
Proof. exact (clean_str_app_amp_le (String.length a) a x (le_n _)). Qed.

(** The example of the specification, anywhere in a text. *)
Lemma clean_str_example_inside (a b : string) :
  clean_str (a ++ "&#x2F;test&amp;path" ++ b)
  = clean_str a ++ "/test&path" ++ clean_str b.
Proof.
  change ("&#x2F;test&amp;path" ++ b)
    with (String "&" ("#x2F;test&amp;path" ++ b)).
  rewrite clean_str_app_amp. f_equal.
  change (String "&" ("#x2F;test&amp;path" ++ b))
    with (ent_slash ++ ("test&amp;path" ++ b)).
  rewrite clean_cons_slash.
  change ("test&amp;path" ++ b)
    with (String "t" (String "e" (String "s" (String "t"
            (ent_amp ++ ("path" ++ b)))))).
  do 4 (rewrite clean_cons_other by reflexivity).
  rewrite clean_cons_amp.
  change ("path" ++ b)
    with (String "p" (String "a" (String "t" (String "h" b)))).
  do 4 (rewrite clean_cons_other by reflexivity).
  reflexivity.
Qed.

(** A text in which neither entity occurs is returned as it is. *)
Lemma clean_str_no_entity (s : string) :
  contains ent_slash s = false -> contains ent_amp s = false ->
  clean_str s = s.
Proof.
  induction s as [|c t IH]; intros H1 H2; [reflexivity|].
  simpl contains in H1, H2.
  apply orb_false_iff in H1 as [H1 H1'], H2 as [H2 H2'].
  rewrite (clean_cons_other _ _ H1 H2), IH by assumption. reflexivity.
Qed.

End Occurrences.

(** C9.  [_clean_html_text] on a text is the one-pass replacement of the
    specification: every [&#x2F;] becomes [/], every [&amp;] becomes [&],
    all other characters are kept in place; a text without the two
    entities comes back unchanged; and wherever [&#x2F;test&amp;path]
    stands in the input, [/test&path] stands in the output. *)
Theorem clean_html_text_normalizes :
  (forall raw_text : string,
      _clean_html_text (Some raw_text) = Some (normalize_spec raw_text)) /\
  (forall raw_text : string,
      PyStr.contains ent_slash raw_text = false ->
      PyStr.contains ent_amp raw_text = false ->
      _clean_html_text (Some raw_text) = Some raw_text) /\
  (forall before after : string,
      _clean_html_text (Some (before ++ "&#x2F;test&amp;path" ++ after))
      = Some (normalize_spec before ++ "/test&path" ++ normalize_spec after)) /\
  _clean_html_text (Some "&#x2F;test&amp;path") = Some "/test&path".
Proof.
  split; [|split; [|split]].
  - intros s. unfold _clean_html_text. f_equal.
    exact (clean_refines_spec_le (String.length s) s (le_n _)).
  - intros s H1 H2. unfold _clean_html_text. f_equal. now apply clean_str_no_entity.
  - intros a b. unfold _clean_html_text. f_equal.
    rewrite clean_str_example_inside.
    rewrite (clean_refines_spec_le (String.length a) a (le_n _)).
    rewrite (clean_refines_spec_le (String.length b) b (le_n _)).
    reflexivity.
  - reflexivity.
Qed.

(* --------------------------------------------------------------------- *)
(** ** The world and the monad *)

Lemma db_reliable_head (n : nat) (w : World) :
  db_reliable (S n) w -> db_fault w (db_calls w) = None.
Proof.
  intros H. specialize (H 0 (Nat.lt_0_succ n)).
  now rewrite Nat.add_0_r in H.
Qed.

Lemma db_reliable_tick (n : nat) (w : World) :
  db_reliable (S n) w -> db_reliable n (tick_db w).
Proof.
  intros H k Hk. simpl.
  specialize (H (S k) (proj1 (Nat.succ_lt_mono k n) Hk)).
  now rewrite Nat.add_succ_r in H.
Qed.

Lemma db_reliable_weaken (n m : nat) (w : World) :
  m <= n -> db_reliable n w -> db_reliable m w.
Proof. intros Hle H k Hk. apply H. lia. Qed.

(** A request that the world lets through runs on the ticked world. *)
Lemma execute_ok {A : Type} (op : M A) (w : World) :
  db_fault w (db_calls w) = None -> execute op w = op (tick_db w).
Proof. intros H. unfold execute. now rewrite H. Qed.

Lemma execute_fault {A : Type} (op : M A) (w : World) (msg : string) :
  db_fault w (db_calls w) = Some msg ->
  execute op w = (Raise (Exn APIError msg), tick_db w).
Proof. intros H. unfold execute. now rewrite H. Qed.

(* --------------------------------------------------------------------- *)
(** ** database/db_layer.py: stories *)

Section CreateStory.

Variables (h : Z) (title1 title2 : option string) (kids1 kids2 : Z)
          (month1 month2 : string) (desc1 desc2 score1 score2 : Z)
          (time1 time2 : option string).

Let matching (w : World) : list StoryRow :=
  filter (fun r => (story_hn_id r =? h)%Z) (stories w).

(** When the ID is already stored, [create_story] answers with the first
    stored row and writes nothing. *)
Lemma create_story_existing (w : World) (existing : StoryRow)
    (others : list StoryRow) :
  db_reliable 1 w ->
  matching w = existing :: others ->
  create_story h title1 kids1 month1 desc1 score1 time1 w
  = (Ok existing, tick_db w).
Proof.
  intros Hdb Hm. unfold create_story, try_except, bind.
  rewrite (execute_ok _ _ (db_reliable_head _ _ Hdb)).
  unfold select_stories_by_hn_id. simpl. fold (matching w).
  rewrite Hm. reflexivity.
Qed.

(** When the ID is not stored, [create_story] stores one row and answers
    with it. *)
Lemma create_story_fresh (w : World) :
  db_reliable 2 w ->
  matching w = [] ->
  exists row,
    story_hn_id row = h /\
    create_story h title1 kids1 month1 desc1 score1 time1 w
    = (Ok row,
       with_tables (stories w ++ [row]) (comments w) (story_seq w + 1)%Z
         (tick_db (tick_db w))).
Proof.
  intros Hdb Hm. eexists. split; cycle 1.
  - unfold create_story, try_except, bind.
    rewrite (execute_ok _ _ (db_reliable_head _ _ Hdb)).
    unfold select_stories_by_hn_id. simpl. fold (matching w).
    rewrite Hm.
    rewrite (execute_ok _ _
               (db_reliable_head _ _ (db_reliable_tick _ _ Hdb))).
    unfold insert_story, ret. simpl. reflexivity.
  - reflexivity.
Qed.

End CreateStory.

Lemma matching_stories_app (h : Z) (l1 l2 : list StoryRow) :
  filter (fun r => (story_hn_id r =? h)%Z) (l1 ++ l2)
  = (filter (fun r => (story_hn_id r =? h)%Z) l1
     ++ filter (fun r => (story_hn_id r =? h)%Z) l2)%list.
Proof. apply filter_app. Qed.

(** C7.  Story creation is idempotent.  In a world whose store answers the
    requests, two consecutive [create_story] calls with the same forum ID
    (whatever the other fields) return the same record, the second call
    writes nothing, and the table then holds as many rows with that ID as
    before, or one when there was none; when the ID was already stored the
    first call returns the stored row and writes nothing either. *)
Theorem create_story_idempotent
    (h : Z) (title1 title2 : option string) (kids1 kids2 : Z)
    (month1 month2 : string) (desc1 desc2 score1 score2 : Z)
    (time1 time2 : option string) (w : World) :
  db_reliable 3 w ->
  exists (r : StoryRow) (w1 w2 : World),
    create_story h title1 kids1 month1 desc1 score1 time1 w = (Ok r, w1) /\
    create_story h title2 kids2 month2 desc2 score2 time2 w1 = (Ok r, w2) /\
    stories w2 = stories w1 /\
    List.length (filter (fun r => (story_hn_id r =? h)%Z) (stories w2))
    = Nat.max 1
        (List.length (filter (fun r => (story_hn_id r =? h)%Z) (stories w))) /\
    (forall existing others,
        filter (fun r => (story_hn_id r =? h)%Z) (stories w)
        = existing :: others ->
        r = existing /\ stories w1 = stories w).
Proof.
  intros Hdb.
  destruct (filter (fun r => (story_hn_id r =? h)%Z) (stories w))
    as [|existing others] eqn:Hm.
  - destruct (create_story_fresh h title1 kids1 month1 desc1 score1 time1 w
                (db_reliable_weaken 3 2 w ltac:(lia) Hdb) Hm)
      as (row & Hrow & Hfirst).
    set (w1 := with_tables (stories w ++ [row]) (comments w)
                 (story_seq w + 1)%Z (tick_db (tick_db w))) in *.
    assert (Hm1 : filter (fun r => (story_hn_id r =? h)%Z) (stories w1)
                  = [row]).
    { subst w1. simpl. rewrite matching_stories_app, Hm. simpl.
      rewrite Hrow, Z.eqb_refl. reflexivity. }
    assert (Hdb1 : db_reliable 1 w1).
    { intros k Hk. subst w1. simpl.
      specialize (Hdb (2 + k) ltac:(lia)).
      replace (db_calls w + (2 + k)) with (S (S (db_calls w + k))) in Hdb
        by lia.
      exact Hdb. }
    exists row, w1, (tick_db w1).
    split; [|split; [|split; [|split]]].
    + exact Hfirst.
    + exact (create_story_existing h title2 kids2 month2 desc2 score2 time2
               w1 row [] Hdb1 Hm1).
    + reflexivity.
    + change (stories (tick_db w1)) with (stories w1).
      rewrite Hm1. reflexivity.
    + discriminate.
  - assert (Hdb0 : db_reliable 1 w)
      by exact (db_reliable_weaken 3 1 w ltac:(lia) Hdb).
    assert (Hdb1 : db_reliable 1 (tick_db w)).
    { apply db_reliable_tick. exact (db_reliable_weaken 3 2 w ltac:(lia) Hdb). }
    exists existing, (tick_db w), (tick_db (tick_db w)).
    split; [|split; [|split; [|split]]].
    + exact (create_story_existing h title1 kids1 month1 desc1 score1 time1
               w existing others Hdb0 Hm).
    + exact (create_story_existing h title2 kids2 month2 desc2 score2 time2
               (tick_db w) existing others Hdb1 Hm).
    + reflexivity.
    + change (stories (tick_db (tick_db w))) with (stories w).
      rewrite Hm. reflexivity.
    + intros e o H. injection H as -> _. split; reflexivity.
Qed.

Lemma no_fault_reliable (n : nat) (st : list StoryRow) (cs : list CommentRow)
    (unique : bool) (model : nat -> string -> option dict)
    (forum : nat -> Z -> http_reply) :
  db_reliable n (world_of st cs unique model forum).
Proof. intros k _. reflexivity. Qed.

(** A run of C7 on the empty store: the first call creates the row, the
    second returns it. *)
Lemma create_story_idempotent_witness :
  db_reliable 3 (world_of [] [] true silent_llm no_item) /\
  exists (r : StoryRow) (w1 w2 : World),
    create_story 40000001 (Some "Who is hiring?") 3 "2025-09" 3 10 None
      (world_of [] [] true silent_llm no_item) = (Ok r, w1) /\
    create_story 40000001 None 0 "2025-10" 0 0 None w1 = (Ok r, w2) /\
    stories w2 = stories w1 /\
    List.length
      (filter (fun r => (story_hn_id r =? 40000001)%Z) (stories w2))
    = Nat.max 1
        (List.length
           (filter (fun r => (story_hn_id r =? 40000001)%Z)
              (stories (world_of [] [] true silent_llm no_item)))) /\
    (forall existing others,
        filter (fun r => (story_hn_id r =? 40000001)%Z)
          (stories (world_of [] [] true silent_llm no_item))
        = existing :: others ->
        r = existing /\
        stories w1 = stories (world_of [] [] true silent_llm no_item)).
Proof.
  split.
  - apply no_fault_reliable.
  - apply (create_story_idempotent 40000001 (Some "Who is hiring?") None 3 0
             "2025-09" "2025-10" 3 0 10 0 None None).
    apply no_fault_reliable.
Defined.

(* --------------------------------------------------------------------- *)
(** ** database/db_layer.py: comments *)

(** The comments table after [update_comment_status]: untouched when the
    request fails, otherwise the rows with the ID carry the update. *)
Lemma update_comment_status_comments (comment_id : Z) (status : string)
    (sd : option dict) (w : World) :
  comments (snd (update_comment_status comment_id status sd w))
  = match db_fault w (db_calls w) with
    | Some _ => comments w
    | None =>
        map (fun c => if (hn_id c =? comment_id)%Z
                      then apply_update (build_update_data status sd) c
                      else c) (comments w)
    end.
Proof.
  unfold update_comment_status, try_except, bind, execute.
  destruct (db_fault w (db_calls w)); reflexivity.
Qed.

Lemma update_comment_status_stories (comment_id : Z) (status : string)
    (sd : option dict) (w : World) :
  stories (snd (update_comment_status comment_id status sd w)) = stories w.
Proof.
  unfold update_comment_status, try_except, bind, execute.
  destruct (db_fault w (db_calls w)); reflexivity.
Qed.

Lemma email_apply_update (u : UpdateData) (c : CommentRow) :
  email (apply_update u c)
  = match upd_email u with Some v => v | None => email c end.
Proof. reflexivity. Qed.

Lemma build_update_data_email_absent (status : string) (d : dict) :
  dict_get "email" d = JNull ->
  upd_email (build_update_data status (Some d)) = None.
Proof. intros H. simpl. rewrite H. reflexivity. Qed.

Lemma build_update_data_email_not_null (status : string) (d : dict) (v : json) :
  upd_email (build_update_data status (Some d)) = Some v -> v <> JNull.
Proof.
  simpl. destruct (dict_get "email" d) eqn:E; simpl; intros H;
    try discriminate; injection H as <-; discriminate.
Qed.

(** C10.  [update_comment_status] with a payload whose email is absent or
    null leaves every stored email as it is, while it does write the status
    and the payload of the rows with the ID; and whatever the arguments, a
    stored email is only ever replaced by null when the payload argument is
    [None]. *)
Theorem update_comment_status_email_frame
    (comment_id : Z) (status : string) (sd : option dict) (w : World) :
  let w' := snd (update_comment_status comment_id status sd w) in
  (forall d, sd = Some d -> dict_get "email" d = JNull ->
     map email (comments w') = map email (comments w)) /\
  (forall d, sd = Some d -> db_fault w (db_calls w) = None ->
     Forall (fun c => hn_id c = comment_id ->
                      processed_status c = status /\
                      structured_data c = JObj d) (comments w')) /\
  Forall2 (fun old new => email old <> JNull -> email new = JNull -> sd = None)
    (comments w) (comments w').
Proof.
  cbv zeta. rewrite update_comment_status_comments.
  split; [|split].
  - intros d -> Hemail.
    destruct (db_fault w (db_calls w)); [reflexivity|].
    rewrite map_map. apply map_ext. intros c.
    destruct (hn_id c =? comment_id)%Z; [|reflexivity].
    unfold apply_update. rewrite build_update_data_email_absent by assumption.
    reflexivity.
  - intros d -> ->. apply Forall_forall. intros c Hc Hid.
    apply in_map_iff in Hc as (c0 & <- & _).
    destruct (hn_id c0 =? comment_id)%Z eqn:E.
    + split; reflexivity.
    + apply Z.eqb_neq in E. contradiction.
  - destruct (db_fault w (db_calls w)).
    + induction (comments w); constructor; auto. intros H1 H2. contradiction.
    + induction (comments w) as [|c cs IH]; constructor; auto.
      destruct (hn_id c =? comment_id)%Z; [|intros H1 H2; contradiction].
      intros Hold Hnew. destruct sd as [d|]; [exfalso|reflexivity].
      rewrite email_apply_update in Hnew.
      destruct (upd_email (build_update_data status (Some d))) as [v|] eqn:E.
      * exact (build_update_data_email_not_null _ _ _ E Hnew).
      * contradiction.
Qed.

(** A stored address survives a later extraction that found none. *)
Example email_survives :
  let row := apply_update
               (build_update_data "completed"
                  (Some [("company", JStr "Acme"); ("email", JStr "a@acme.io")]))
               (pending_comment 7 "Acme is hiring") in
  let w := world_of [] [row] true silent_llm no_item in
  let '(r, w') :=
    update_comment_status 7 "completed"
      (Some [("company", JStr "Acme"); ("email", JNull)]) w in
  r = Ok true /\
  map email (comments w') = [JStr "a@acme.io"] /\
  map structured_data (comments w')
  = [JObj [("company", JStr "Acme"); ("email", JNull)]].
Proof. repeat split. Qed.

Lemma hn_id_taken_app (h : Z) (t1 t2 : list CommentRow) :
  hn_id_taken h (t1 ++ t2) = hn_id_taken h t1 || hn_id_taken h t2.
Proof. apply existsb_app. Qed.

(** A batch that holds a row whose ID is taken collides. *)
Lemma collision_found (batch : list CommentRow) :
  forall (table : list CommentRow) (c : CommentRow),
    hn_id_taken (hn_id c) table = true -> In c batch ->
    no_collision table batch = false.
Proof.
  induction batch as [|c' rest IH]; intros table c Htaken Hin; [contradiction|].
  simpl. destruct Hin as [->|Hin].
  - rewrite Htaken. reflexivity.
  - rewrite (IH (table ++ [c'])%list c); [apply andb_false_r| |exact Hin].
    rewrite hn_id_taken_app, Htaken. reflexivity.
Qed.

(** What [batch_create_comments] does with a batch that repeats a stored
    ID, when the store answers: under the unique constraint the statement
    is rejected and the code raises; without the constraint every row of
    the batch is appended, the repeated one included. *)
Lemma batch_create_comments_duplicate (w : World) (c : CommentRow)
    (batch : list CommentRow) :
  hn_id_taken (hn_id c) (comments w) = true -> In c batch ->
  db_fault w (db_calls w) = None ->
  batch_create_comments batch w
  = if comments_hn_id_unique w
    then (Raise (Exn DatabaseError
                   ("Error batch creating comments: " ++ unique_violation)),
          tick_db w)
    else (Ok (Z.of_nat (List.length batch)),
          set_comments (comments w ++ batch) (tick_db w)).
Proof.
  intros Htaken Hin Hdb.
  destruct batch as [|b rest]; [contradiction|].
  unfold batch_create_comments, try_except, bind.
  rewrite (execute_ok _ _ Hdb). unfold insert_comments.
  change (comments (tick_db w)) with (comments w).
  change (comments_hn_id_unique (tick_db w)) with (comments_hn_id_unique w).
  rewrite (collision_found _ _ _ Htaken Hin).
  destruct (comments_hn_id_unique w); reflexivity.
Qed.

(** The sibling request of [create_comment] skips a stored ID and leaves
    the table alone. *)
Lemma upsert_comment_ignore_duplicate (w : World) (row : CommentRow) :
  comments_hn_id_unique w = true ->
  hn_id_taken (hn_id row) (comments w) = true ->
  upsert_comment_ignore row w = (Ok [], w).
Proof.
  intros Hu Ht. unfold upsert_comment_ignore. now rewrite Hu, Ht.
Qed.

(** C1, on the code.  The store holds comment 1; the batch holds comments
    1 and 2.  Under the unique constraint on [hn_id] the bulk insert raises
    [DatabaseError] and stores nothing; without the constraint it stores
    comment 1 a second time. *)
Theorem batch_create_comments_duplicate_run :
  let batch := [pending_comment 1 "Acme is hiring"; pending_comment 2 "Bolt"] in
  let strict := world_of [] [pending_comment 1 "Acme is hiring"] true
                  silent_llm no_item in
  let loose := world_of [] [pending_comment 1 "Acme is hiring"] false
                 silent_llm no_item in
  batch_create_comments batch strict
  = (Raise (Exn DatabaseError "Error batch creating comments: 23505"),
     tick_db strict) /\
  fst (batch_create_comments batch loose) = Ok 2%Z /\
  map hn_id (comments (snd (batch_create_comments batch loose)))
  = [1%Z; 1%Z; 2%Z].
Proof. repeat split. Qed.

(* --------------------------------------------------------------------- *)
(** ** services/hn_api_service.py *)

Section Fetcher.

Variables (item_id : Z) (w : World).

(** A 404 reply makes both fetchers raise the typed failure. *)
Lemma fetch_comment_404 (response : Response) :
  http w (http_calls w) item_id = Reply response ->
  status_code response = 404%Z ->
  fetch_comment item_id w
  = (Raise (Exn HNAPIError
              ("Comment " ++ PyStr.of_int item_id ++ " not found or deleted")),
     tick_http w).
Proof.
  intros H H404. unfold fetch_comment, try_except_only, bind, session_get.
  rewrite H, H404. reflexivity.
Qed.

Lemma fetch_story_404 (response : Response) :
  http w (http_calls w) item_id = Reply response ->
  status_code response = 404%Z ->
  fetch_story item_id w
  = (Raise (Exn HNAPIError
              ("Story " ++ PyStr.of_int item_id ++ " not found or deleted")),
     tick_http w).
Proof.
  intros H H404. unfold fetch_story, try_except_only, bind, session_get.
  rewrite H, H404. reflexivity.
Qed.

(** A transport failure is wrapped into the typed failure. *)
Lemma fetch_comment_transport (err : string) :
  http w (http_calls w) item_id = Transport err ->
  fetch_comment item_id w
  = (Raise (Exn HNAPIError ("API request failed: " ++ err)), tick_http w).
Proof.
  intros H. unfold fetch_comment, try_except_only, bind, session_get.
  rewrite H. reflexivity.
Qed.

(** Any other status outside 200..299 leaves [fetch_comment] as httpx's
    [HTTPStatusError], which is not the typed failure. *)
Lemma fetch_comment_bad_status (response : Response) :
  http w (http_calls w) item_id = Reply response ->
  status_code response <> 404%Z -> is_success response = false ->
  fetch_comment item_id w
  = (Raise (Exn HTTPStatusError (status_err response)), tick_http w).
Proof.
  intros H Hne Hbad. unfold fetch_comment, try_except_only, bind, session_get.
  rewrite H. apply Z.eqb_neq in Hne. rewrite Hne.
  unfold raise_for_status. rewrite Hbad. reflexivity.
Qed.

(** A body that is not JSON leaves [fetch_comment] as the decoder's
    exception. *)
Lemma fetch_comment_not_json (response : Response) (derr : string) :
  http w (http_calls w) item_id = Reply response ->
  is_success response = true -> body response = NotJson derr ->
  fetch_comment item_id w = (Raise (Exn JSONDecodeError derr), tick_http w).
Proof.
  intros H Hok Hbody.
  unfold fetch_comment, try_except_only, bind, session_get.
  rewrite H.
  assert (Hne : (status_code response =? 404)%Z = false)
    by (unfold is_success in Hok; lia).
  rewrite Hne. unfold raise_for_status, response_json.
  rewrite Hok, Hbody. reflexivity.
Qed.

(** A successful response with a JSON body gives the body, or [None] when
    the body is falsy. *)
Lemma fetch_comment_success (response : Response) (data : json) :
  http w (http_calls w) item_id = Reply response ->
  is_success response = true -> body response = Json data ->
  fetch_comment item_id w
  = (Ok (if truthy data then data else JNull), tick_http w).
Proof.
  intros H Hok Hbody.
  unfold fetch_comment, try_except_only, bind, session_get.
  rewrite H.
  assert (Hne : (status_code response =? 404)%Z = false)
    by (unfold is_success in Hok; lia).
  rewrite Hne. unfold raise_for_status, response_json.
  rewrite Hok, Hbody. reflexivity.
Qed.

(** [fetch_comment] makes one request, whatever comes of it. *)
Lemma fetch_comment_world :
  snd (fetch_comment item_id w) = tick_http w.
Proof.
  unfold fetch_comment, try_except_only, bind, session_get.
  destruct (http w (http_calls w) item_id) as [response|err];
    [|reflexivity].
  destruct (status_code response =? 404)%Z; [reflexivity|].
  unfold raise_for_status, response_json.
  destruct (is_success response); [|reflexivity].
  destruct (body response); reflexivity.
Qed.

(** One round of the batch loop, by the outcome of the fetch. *)
Lemma fetch_comments_step_cases (valid : list json) :
  fetch_comments_step item_id valid w
  = match fetch_comment item_id w with
    | (Ok raw, w') =>
        if negb (truthy raw) then (Ok valid, w')
        else match raw with
             | JObj d =>
                 if is_True (dict_get "deleted" d) then (Ok valid, w')
                 else (Ok (valid ++ [raw])%list, w')
             | _ =>
                 (Raise (Exn AttributeError
                           ("'" ++ type_name raw
                            ++ "' object has no attribute 'get'")), w')
             end
    | (Raise e, w') =>
        if skipped_class (class_of e) then (Ok valid, w') else (Raise e, w')
    end.
Proof.
  unfold fetch_comments_step, try_except_only, bind.
  destruct (fetch_comment item_id w) as [[raw|e] w']; [|reflexivity].
  destruct (truthy raw) eqn:Ht; [|reflexivity].
  destruct raw; try reflexivity.
  simpl. destruct (is_True (dict_get "deleted" items)); reflexivity.
Qed.

End Fetcher.

(** A failure of a class the handler names costs the round nothing but
    the item: the list is kept and the loop goes on. *)
Lemma fetch_comments_step_skips (item_id : Z) (w w' : World) (e : exn)
    (valid : list json) :
  fetch_comment item_id w = (Raise e, w') ->
  skipped_class (class_of e) = true ->
  fetch_comments_step item_id valid w = (Ok valid, w').
Proof.
  intros Hf Hc. rewrite fetch_comments_step_cases, Hf, Hc. reflexivity.
Qed.

(** A failure of any other class leaves the round, and with it the loop. *)
Lemma fetch_comments_step_aborts (item_id : Z) (w w' : World) (e : exn)
    (valid : list json) :
  fetch_comment item_id w = (Raise e, w') ->
  skipped_class (class_of e) = false ->
  fetch_comments_step item_id valid w = (Raise e, w').
Proof.
  intros Hf Hc. rewrite fetch_comments_step_cases, Hf, Hc. reflexivity.
Qed.

Lemma fetch_comments_loop_abort (item_id : Z) (rest : list Z) (w w' : World)
    (e : exn) (valid : list json) :
  fetch_comments_step item_id valid w = (Raise e, w') ->
  fetch_comments_loop (item_id :: rest) valid w = (Raise e, w').
Proof. intros H. simpl. unfold bind. rewrite H. reflexivity. Qed.

Lemma is_True_false (v : json) : is_True v = false -> v <> JBool true.
Proof. intros H ->. discriminate. Qed.

(** A round keeps the list free of deleted payloads. *)
Lemma fetch_comments_step_not_deleted (item_id : Z) (w w' : World)
    (valid valid' : list json) :
  Forall not_deleted valid ->
  fetch_comments_step item_id valid w = (Ok valid', w') ->
  Forall not_deleted valid'.
Proof.
  intros Hv. rewrite fetch_comments_step_cases.
  destruct (fetch_comment item_id w) as [[raw|e] w1].
  - destruct (negb (truthy raw)).
    + intros H; injection H as <- _; exact Hv.
    + destruct raw; try discriminate.
      destruct (is_True (dict_get "deleted" items)) eqn:E.
      * intros H; injection H as <- _; exact Hv.
      * intros H; injection H as <- _.
        apply Forall_app. split; [exact Hv|].
        constructor; [|constructor].
        exists items. split; [reflexivity|]. now apply is_True_false.
  - destruct (skipped_class (class_of e)); [|discriminate].
    intros H; injection H as <- _; exact Hv.
Qed.

Lemma fetch_comments_loop_not_deleted (comment_ids : list Z) :
  forall (valid res : list json) (w w' : World),
    Forall not_deleted valid ->
    fetch_comments_loop comment_ids valid w = (Ok res, w') ->
    Forall not_deleted res.
Proof.
  induction comment_ids as [|item rest IH]; intros valid res w w' Hv.
  - simpl. unfold ret. intros H; injection H as <- _; exact Hv.
  - simpl. unfold bind.
    destruct (fetch_comments_step item valid w) as [[valid1|e] w1] eqn:Hs;
      [|discriminate].
    apply IH. exact (fetch_comments_step_not_deleted _ _ _ _ _ Hv Hs).
Qed.

(** Whatever the rest of the list, a server error on the first ID ends
    the batch with httpx's exception. *)
Lemma fetch_comments_batch_server_error (item_id : Z) (rest : list Z)
    (w : World) (response : Response) :
  http w (http_calls w) item_id = Reply response ->
  status_code response <> 404%Z -> is_success response = false ->
  fetch_comments_batch (item_id :: rest) w
  = (Raise (Exn HTTPStatusError (status_err response)), tick_http w).
Proof.
  intros H Hne Hbad. unfold fetch_comments_batch.
  apply fetch_comments_loop_abort.
  apply fetch_comments_step_aborts; [|reflexivity].
  exact (fetch_comment_bad_status item_id w response H Hne Hbad).
Qed.

(** A round on a benign reply ends normally, one request later. *)
Lemma fetch_comments_step_benign (item_id : Z) (w : World)
    (valid : list json) :
  benign (http w (http_calls w) item_id) ->
  exists valid', fetch_comments_step item_id valid w = (Ok valid', tick_http w).
Proof.
  intros Hb. destruct (http w (http_calls w) item_id) as [response|err] eqn:H.
  - destruct Hb as [H404|(Hok & data & Hbody & Hdata)].
    + exists valid. apply (fetch_comments_step_skips _ _ _ _ _
                             (fetch_comment_404 item_id w response H H404)).
      reflexivity.
    + rewrite fetch_comments_step_cases,
        (fetch_comment_success item_id w response data H Hok Hbody).
      destruct Hdata as [->|(d & ->)]; [exists valid; reflexivity|].
      destruct d as [|kv d]; [exists valid; reflexivity|].
      cbn [truthy negb].
      destruct (is_True (dict_get "deleted" (kv :: d))); eauto.
  - exists valid. apply (fetch_comments_step_skips _ _ _ _ _
                           (fetch_comment_transport item_id w err H)).
    reflexivity.
Qed.

(** On a forum whose replies are all benign the batch returns a list,
    after one request per ID. *)
Lemma fetch_comments_loop_benign (comment_ids : list Z) :
  forall (valid : list json) (w : World),
    (forall n item, benign (http w n item)) ->
    exists res w',
      fetch_comments_loop comment_ids valid w = (Ok res, w') /\
      http_calls w' = http_calls w + List.length comment_ids.
Proof.
  induction comment_ids as [|item rest IH]; intros valid w Hb.
  - exists valid, w. split; [reflexivity|simpl; lia].
  - destruct (fetch_comments_step_benign item w valid (Hb _ _))
      as (valid1 & Hstep).
    destruct (IH valid1 (tick_http w) Hb) as (res & w' & Hloop & Hcalls).
    exists res, w'. simpl fetch_comments_loop. unfold bind.
    rewrite Hstep, Hloop. split; [reflexivity|].
    rewrite Hcalls. simpl. lia.
Qed.

(** C6.  Whatever the IDs and whatever the forum answers, every payload in
    the list [fetch_comments_batch] returns is a dictionary whose
    ["deleted"] entry is not [True]. *)
Theorem fetch_comments_batch_no_deleted
    (comment_ids : list Z) (w w' : World) (res : list json) :
  fetch_comments_batch comment_ids w = (Ok res, w') ->
  Forall not_deleted res.
Proof.
  unfold fetch_comments_batch.
  apply fetch_comments_loop_not_deleted. constructor.
Qed.

(** The scenario of the specification: kids 1, 2, 3 with item 2 deleted
    gives the payloads of 1 and 3. *)
Lemma fetch_comments_batch_no_deleted_witness :
  fetch_comments_batch [1; 2; 3]%Z (world_of [] [] true silent_llm thread_forum)
  = (Ok [comment_payload 1 "Acme is hiring"; comment_payload 3 "Bolt"],
     tick_http (tick_http (tick_http
       (world_of [] [] true silent_llm thread_forum)))) /\
  Forall not_deleted
    [comment_payload 1 "Acme is hiring"; comment_payload 3 "Bolt"].
Proof.
  split.
  - reflexivity.
  - apply (fetch_comments_batch_no_deleted [1; 2; 3]%Z
             (world_of [] [] true silent_llm thread_forum)
             (tick_http (tick_http (tick_http
                (world_of [] [] true silent_llm thread_forum))))).
    reflexivity.
Defined.

(** C3, on the code.  The server answers 500 for comment 1: the batch for
    IDs 1 and 2 ends with httpx's [HTTPStatusError] after one request, and
    comment 2 is never asked for. *)
Theorem fetch_comments_batch_aborts_on_server_error :
  let w := world_of [] [] true silent_llm failing_forum in
  fetch_comments_batch [1; 2]%Z w
  = (Raise (Exn HTTPStatusError "Server error '500 Internal Server Error'"),
     tick_http w) /\
  fetch_comments_batch [2]%Z w
  = (Ok [comment_payload 2 "Bolt"], tick_http w).
Proof. split; reflexivity. Qed.

(** C4, on the code.  On a 404 reply [fetch_comment] raises [HNAPIError],
    as [fetch_story] does; it does not return [None]. *)
Theorem fetch_comment_not_found_raises :
  let w := world_of [] [] true silent_llm missing_forum in
  fetch_comment 7 w
  = (Raise (Exn HNAPIError "Comment 7 not found or deleted"), tick_http w) /\
  fetch_story 7 w
  = (Raise (Exn HNAPIError "Story 7 not found or deleted"), tick_http w) /\
  fetch_comments_batch [7]%Z w = (Ok [], tick_http w).
Proof. repeat split. Qed.

(* --------------------------------------------------------------------- *)
(** ** services/processing_service.py *)

(** Every store operation of the service leaves the world a store call
    further and nothing else. *)
Lemma get_comments_by_hn_id_run (h : Z) (w : World) :
  get_comments_by_hn_id h w
  = match db_fault w (db_calls w) with
    | Some msg =>
        (Raise (Exn DatabaseError ("Error fetching comments: " ++ msg)),
         tick_db w)
    | None =>
        (Ok (filter (fun c => (hn_id c =? h)%Z) (comments w)), tick_db w)
    end.
Proof.
  unfold get_comments_by_hn_id, try_except, bind, execute.
  destruct (db_fault w (db_calls w)); reflexivity.
Qed.

Lemma get_pending_comments_run (w : World) :
  get_pending_comments 1000 w
  = match db_fault w (db_calls w) with
    | Some msg =>
        (Raise (Exn DatabaseError ("Error fetching comments: " ++ msg)),
         tick_db w)
    | None => (Ok (pending_rows w), tick_db w)
    end.
Proof.
  unfold get_pending_comments, try_except, bind, execute.
  destruct (db_fault w (db_calls w)); reflexivity.
Qed.

Lemma filter_none_taken (h : Z) (table : list CommentRow) :
  hn_id_taken h table = false ->
  filter (fun c => (hn_id c =? h)%Z) table = [].
Proof.
  induction table as [|c cs IH]; simpl; [reflexivity|].
  destruct (hn_id c =? h)%Z; simpl; [discriminate|exact IH].
Qed.

(** C5.  When the store answers and no comment row carries the forum ID,
    [process_single_comment] returns the failure dictionary with the
    not-found message; the model is not called and the tables are as
    before. *)
Theorem process_single_comment_not_found (hn_id0 : Z) (w : World) :
  db_fault w (db_calls w) = None ->
  hn_id_taken hn_id0 (comments w) = false ->
  exists w' : World,
    process_single_comment hn_id0 w
    = (Ok (Failure hn_id0
             ("No comment found with HN ID " ++ PyStr.of_int hn_id0)), w') /\
    comments w' = comments w /\
    stories w' = stories w /\
    llm_calls w' = llm_calls w.
Proof.
  intros Hdb Habsent. exists (tick_db w).
  unfold process_single_comment, try_except, bind.
  rewrite get_comments_by_hn_id_run, Hdb, (filter_none_taken _ _ Habsent).
  repeat split.
Qed.

(** C5 run on a store that holds comment 7 only, asked for comment 42. *)
Lemma process_single_comment_not_found_witness :
  let w := world_of [] [pending_comment 7 "Acme is hiring"] true
             silent_llm no_item in
  db_fault w (db_calls w) = None /\
  hn_id_taken 42 (comments w) = false /\
  exists w' : World,
    process_single_comment 42 w
    = (Ok (Failure 42 "No comment found with HN ID 42"), w') /\
    comments w' = comments w /\
    stories w' = stories w /\
    llm_calls w' = llm_calls w.
Proof.
  cbv zeta. split; [reflexivity|split; [reflexivity|]].
  apply (process_single_comment_not_found 42
           (world_of [] [pending_comment 7 "Acme is hiring"] true
              silent_llm no_item)); reflexivity.
Defined.

(** The write-back helper never raises. *)
Lemma _update_comment_with_results_total (comment_id : Z) (sd : option dict)
    (status : string) (w : World) :
  exists (b : bool) (w' : World),
    _update_comment_with_results comment_id sd status w = (Ok b, w').
Proof.
  unfold _update_comment_with_results, try_except, bind, ret.
  destruct (update_comment_status comment_id status sd w) as [[b|e] w1].
  - eauto.
  - destruct (update_comment_status comment_id "error" None w1) as [[b|e'] w2];
      eauto.
Qed.

(** One round of the bulk loop ends normally, leaves [processed_count]
    alone and settles one comment. *)
Lemma process_pending_step_counts (comment : CommentRow) (s : Summary)
    (w : World) :
  exists (s' : Summary) (w' : World),
    process_pending_step comment s w = (Ok s', w') /\
    processed_count s' = processed_count s /\
    settled s' = (settled s + 1)%Z.
Proof.
  unfold process_pending_step, try_except, bind,
    _extract_job_data_with_claude.
  destruct (llm w (llm_calls w) (fmt (_clean_html_text (story_text comment))))
    as [d|].
  - destruct (_update_comment_with_results_total (hn_id comment) (Some d)
                "completed" (tick_llm w)) as (b & w' & ->).
    destruct b; eexists; eexists; (split; [reflexivity|]);
      unfold settled; simpl; split; lia.
  - destruct (_update_comment_with_results_total (hn_id comment) None
                "error" (tick_llm w)) as (b & w' & ->).
    eexists; eexists; (split; [reflexivity|]).
    unfold settled; simpl; split; lia.
Qed.

Lemma process_pending_loop_counts (pending : list CommentRow) :
  forall (s : Summary) (w : World),
  exists (s' : Summary) (w' : World),
    process_pending_loop pending s w = (Ok s', w') /\
    processed_count s' = processed_count s /\
    settled s' = (settled s + Z.of_nat (List.length pending))%Z.
Proof.
  induction pending as [|comment rest IH]; intros s w.
  - exists s, w. simpl List.length. repeat split. lia.
  - destruct (process_pending_step_counts comment s w)
      as (s1 & w1 & Hstep & Hp1 & Hs1).
    destruct (IH s1 w1) as (s2 & w2 & Hloop & Hp2 & Hs2).
    exists s2, w2. simpl process_pending_loop. unfold bind.
    rewrite Hstep, Hloop. split; [reflexivity|].
    split; [congruence|]. rewrite Hs2, Hs1. simpl List.length. lia.
Qed.

(** C8.  A run of [process_pending_comments] either fails at the first
    store request, with [DatabaseError], or returns a summary whose
    [processed_count] is 0 while its other counters and its error list
    account for every pending row. *)
Theorem processed_count_is_zero (w : World) :
  match process_pending_comments w with
  | (Ok s, _) =>
      processed_count s = 0%Z /\
      settled s = Z.of_nat (List.length (pending_rows w))
  | (Raise e, _) =>
      class_of e = DatabaseError /\ db_fault w (db_calls w) <> None
  end.
Proof.
  unfold process_pending_comments, bind.
  rewrite get_pending_comments_run.
  destruct (db_fault w (db_calls w)) as [msg|].
  - split; [reflexivity|discriminate].
  - destruct (process_pending_loop_counts (pending_rows w)
                {| processed_count := 0; successful_count := 0;
                   failed_count := 0; errors := [] |} (tick_db w))
      as (s & w' & -> & Hp & Hs).
    split; [exact Hp|]. rewrite Hs. reflexivity.
Qed.

(** A run with two pending comments, one extracted and one not: one
    success, one failure, and still [processed_count = 0]. *)
Example processed_count_run :
  let model := fun (_ : nat) (text : string) =>
                 if text =? "Acme is hiring"
                 then Some [("company", JStr "Acme"); ("email", JNull)]
                 else None in
  let w := world_of []
             [pending_comment 1 "Acme is hiring"; pending_comment 2 "hello"]
             true model no_item in
  fst (process_pending_comments w)
  = Ok {| processed_count := 0; successful_count := 1; failed_count := 1;
          errors := [] |} /\
  map processed_status (comments (snd (process_pending_comments w)))
  = ["completed"; "error"].
Proof. split; reflexivity. Qed.

(* --------------------------------------------------------------------- *)
(** *** The shapes the two modes write *)

Lemma Forall2_same {A : Type} (R : A -> A -> Prop) (l : list A) :
  (forall a, R a a) -> Forall2 R l l.
Proof. intros HR. induction l; constructor; auto. Qed.

Lemma Forall2_chain {A : Type} (R : A -> A -> Prop) :
  (forall a b c, R a b -> R b c -> R a c) ->
  forall l1 l2 l3, Forall2 R l1 l2 -> Forall2 R l2 l3 -> Forall2 R l1 l3.
Proof.
  intros HR l1 l2 l3 H12. revert l3.
  induction H12 as [|a b l1 l2 Hab _ IH]; intros l3 H23;
    inversion H23; subst; constructor; eauto.
Qed.

Lemma kept_or_shaped_refl (c : CommentRow) : kept_or_shaped c c.
Proof. now left. Qed.

Lemma kept_or_shaped_trans (a b c : CommentRow) :
  kept_or_shaped a b -> kept_or_shaped b c -> kept_or_shaped a c.
Proof.
  intros Hab [->|Hc]; [exact Hab|]. right. exact Hc.
Qed.

(** An update whose data has one of the two shapes gives rows that are
    kept or shaped. *)
Lemma update_comment_status_shaped (comment_id : Z) (status : string)
    (sd : option dict) (w : World) :
  (forall c, kept_or_shaped c (apply_update (build_update_data status sd) c)) ->
  Forall2 kept_or_shaped (comments w)
    (comments (snd (update_comment_status comment_id status sd w))).
Proof.
  intros Hshape. rewrite update_comment_status_comments.
  destruct (db_fault w (db_calls w)).
  - apply Forall2_same, kept_or_shaped_refl.
  - induction (comments w) as [|c cs IH]; constructor; [|exact IH].
    destruct (hn_id c =? comment_id)%Z;
      [apply Hshape|apply kept_or_shaped_refl].
Qed.

Lemma error_update_shaped (c : CommentRow) :
  kept_or_shaped c (apply_update (build_update_data "error" None) c).
Proof. right; right. repeat split. Qed.

Lemma completed_update_shaped (d : dict) (c : CommentRow) :
  kept_or_shaped c (apply_update (build_update_data "completed" (Some d)) c).
Proof. right; left. split; [reflexivity|]. exists d. reflexivity. Qed.

(** The write-back helper, called the way the bulk loop calls it. *)
Lemma _update_comment_with_results_shaped (comment_id : Z) (sd : option dict)
    (status : string) (w : World) :
  (forall c, kept_or_shaped c (apply_update (build_update_data status sd) c)) ->
  Forall2 kept_or_shaped (comments w)
    (comments (snd (_update_comment_with_results comment_id sd status w))).
Proof.
  intros Hshape.
  pose proof (update_comment_status_shaped comment_id status sd w Hshape) as H1.
  unfold _update_comment_with_results, try_except, bind, ret.
  destruct (update_comment_status comment_id status sd w) as [[b|e] w1];
    simpl in *; [exact H1|].
  pose proof (update_comment_status_shaped comment_id "error" None w1
                error_update_shaped) as H2.
  destruct (update_comment_status comment_id "error" None w1) as [[b|e'] w2];
    simpl in *;
    exact (Forall2_chain _ kept_or_shaped_trans _ _ _ H1 H2).
Qed.

Lemma process_pending_step_shaped (comment : CommentRow) (s : Summary)
    (w : World) :
  Forall2 kept_or_shaped (comments w)
    (comments (snd (process_pending_step comment s w))).
Proof.
  unfold process_pending_step, try_except, bind,
    _extract_job_data_with_claude.
  destruct (llm w (llm_calls w) (fmt (_clean_html_text (story_text comment))))
    as [d|].
  - pose proof (_update_comment_with_results_shaped (hn_id comment) (Some d)
                  "completed" (tick_llm w) (completed_update_shaped d)) as H.
    destruct (_update_comment_with_results (hn_id comment) (Some d)
                "completed" (tick_llm w)) as [[b|e] w'];
      [destruct b|]; exact H.
  - pose proof (_update_comment_with_results_shaped (hn_id comment) None
                  "error" (tick_llm w) error_update_shaped) as H.
    destruct (_update_comment_with_results (hn_id comment) None
                "error" (tick_llm w)) as [[b|e] w']; exact H.
Qed.

Lemma process_pending_loop_shaped (pending : list CommentRow) :
  forall (s : Summary) (w : World),
    Forall2 kept_or_shaped (comments w)
      (comments (snd (process_pending_loop pending s w))).
Proof.
  induction pending as [|comment rest IH]; intros s w.
  - apply Forall2_same, kept_or_shaped_refl.
  - simpl process_pending_loop. unfold bind.
    pose proof (process_pending_step_shaped comment s w) as H1.
    destruct (process_pending_step comment s w) as [[s1|e] w1];
      simpl in H1; [|exact H1].
    exact (Forall2_chain _ kept_or_shaped_trans _ _ _ H1 (IH s1 w1)).
Qed.

(** Bulk mode keeps to the two shapes: every row it leaves behind is the
    row it found, or is completed with a payload, or is in error with
    payload and email null. *)
Lemma process_pending_comments_shaped (w : World) :
  Forall2 kept_or_shaped (comments w)
    (comments (snd (process_pending_comments w))).
Proof.
  unfold process_pending_comments, bind.
  rewrite get_pending_comments_run.
  destruct (db_fault w (db_calls w)).
  - apply Forall2_same, kept_or_shaped_refl.
  - apply (process_pending_loop_shaped (pending_rows w) _ (tick_db w)).
Qed.

(** Single mode with a stored comment and a model call that yields
    nothing, in a store that answers: the call reports success and every
    row with the ID ends up completed with a null payload. *)
Lemma process_single_comment_null_payload (h : Z) (w : World)
    (c : CommentRow) (others : list CommentRow) (text : string) :
  db_reliable 2 w ->
  filter (fun r => (hn_id r =? h)%Z) (comments w) = c :: others ->
  story_text c = Some text ->
  llm w (llm_calls w) (clean_str text) = None ->
  exists w' : World,
    process_single_comment h w = (Ok (Success h None true), w') /\
    Forall (fun r => hn_id r = h -> outcome r = ("completed", JNull, JNull))
      (comments w').
Proof.
  intros Hdb Hrows Htext Hllm.
  assert (Hc : hn_id c = h).
  { assert (Hin : In c (filter (fun r => (hn_id r =? h)%Z) (comments w)))
      by (rewrite Hrows; now left).
    apply filter_In in Hin as [_ Hin]. now apply Z.eqb_eq. }
  pose proof (db_reliable_head _ _ Hdb) as Hdb0.
  pose proof (db_reliable_head _ _ (db_reliable_tick _ _ Hdb)) as Hdb1.
  eexists. split.
  - unfold process_single_comment, try_except, bind.
    rewrite get_comments_by_hn_id_run, Hdb0, Hrows, Htext.
    cbn [check_sliceable _clean_html_text ret].
    unfold _extract_job_data_with_claude.
    change (llm (tick_db w) (llm_calls (tick_db w)) (fmt (Some (clean_str text))))
      with (llm w (llm_calls w) (clean_str text)).
    rewrite Hllm.
    unfold _update_comment_with_results, update_comment_status,
      try_except, bind.
    rewrite (execute_ok _ (tick_llm (tick_db w)) Hdb1).
    unfold update_comments_by_hn_id, ret.
    change (comments (tick_db (tick_llm (tick_db w)))) with (comments w).
    rewrite Hc, Hrows. reflexivity.
  - cbn [comments set_comments with_tables].
    apply Forall_forall. intros r Hr Hid.
    apply in_map_iff in Hr as (r0 & <- & _).
    destruct (hn_id r0 =? h)%Z eqn:E; [reflexivity|].
    apply Z.eqb_neq in E. contradiction.
Qed.

(** C2, on the code.  The store holds the pending comment 7 and the model
    call yields nothing.  Single mode reports success and stores status
    "completed" with a null payload; bulk mode, on the same world, stores
    status "error". *)
Theorem process_single_comment_completed_without_payload :
  let w := world_of [] [pending_comment 7 "hello"] true silent_llm no_item in
  fst (process_single_comment 7 w) = Ok (Success 7 None true) /\
  map outcome (comments (snd (process_single_comment 7 w)))
  = [("completed", JNull, JNull)] /\
  map outcome (comments (snd (process_pending_comments w)))
  = [("error", JNull, JNull)].
Proof. repeat split. Qed.

(* ===================================================================== *)
(** ** More of database/db_layer.py *)
(* ===================================================================== *)

(** *** Errors are wrapped *)

Lemma try_except_wraps {A : Type} (m : M A) (cls : exn_class)
    (text : exn -> string) (w : World) :
  raises_only cls
    (fst (try_except m (fun e => raise (Exn cls (text e))) w)).
Proof.
  unfold try_except, raise. destruct (m w) as [[a|e] w']; simpl; auto.
Qed.

(** X1.  Whatever the store does, an exception that leaves an operation
    of [HNDatabase] is a [DatabaseError]. *)
Theorem db_layer_raises_database_error (w : World) :
  (forall h t k m d s c,
      raises_only DatabaseError (fst (create_story h t k m d s c w))) /\
  (forall h, raises_only DatabaseError (fst (get_story_by_hn_id h w))) /\
  (forall h sid text sd ct,
      raises_only DatabaseError (fst (create_comment h sid text sd ct w))) /\
  (forall m, raises_only DatabaseError (fst (get_completed_jobs m w))) /\
  (forall sid,
      raises_only DatabaseError (fst (get_comments_by_story_id sid w))) /\
  (forall h, raises_only DatabaseError (fst (get_comments_by_hn_id h w))) /\
  (forall limit,
      raises_only DatabaseError (fst (get_pending_comments limit w))) /\
  (forall h status sd,
      raises_only DatabaseError (fst (update_comment_status h status sd w))) /\
  (forall batch,
      raises_only DatabaseError (fst (batch_create_comments batch w))).
Proof.
  repeat split; intros; apply try_except_wraps.
Qed.

(** *** Stories: create, then look up *)

(** The row a successful [create_story] returns is, afterwards, the first
    stored row with that forum ID. *)
Lemma create_story_ok_first (h : Z) (t : option string) (k : Z) (m : string)
    (d s : Z) (c : option string) (w w1 : World) (r : StoryRow) :
  create_story h t k m d s c w = (Ok r, w1) ->
  exists others,
    filter (fun x => (story_hn_id x =? h)%Z) (stories w1) = r :: others.
Proof.
  unfold create_story, try_except, bind, execute.
  destruct (db_fault w (db_calls w)); [discriminate|].
  unfold select_stories_by_hn_id.
  change (stories (tick_db w)) with (stories w).
  destruct (filter (fun x => (story_hn_id x =? h)%Z) (stories w))
    as [|existing others] eqn:Hm.
  - change (db_fault (tick_db w) (db_calls (tick_db w)))
      with (db_fault w (S (db_calls w))).
    destruct (db_fault w (S (db_calls w))); [discriminate|].
    unfold insert_story, ret. intros H. injection H as <- <-.
    exists []. cbn [stories with_tables].
    rewrite filter_app. change (stories (tick_db (tick_db w))) with (stories w).
    rewrite Hm. cbn. rewrite Z.eqb_refl. reflexivity.
  - unfold ret. intros H. injection H as <- <-.
    exists others. exact Hm.
Qed.

(** X2.  Create, then look up: after a successful [create_story] for a
    forum ID, [get_story_by_hn_id] for that ID, if the store answers it,
    returns the very row [create_story] returned, and writes nothing. *)
Theorem create_story_then_get
    (h : Z) (t : option string) (k : Z) (m : string) (d s : Z)
    (c : option string) (w w1 : World) (r : StoryRow) :
  create_story h t k m d s c w = (Ok r, w1) ->
  db_fault w1 (db_calls w1) = None ->
  get_story_by_hn_id h w1 = (Ok (Some r), tick_db w1) /\ story_hn_id r = h.
Proof.
  intros Hcreate Hdb.
  destruct (create_story_ok_first _ _ _ _ _ _ _ _ _ _ Hcreate) as (others & Hm).
  split.
  - unfold get_story_by_hn_id, try_except, bind.
    rewrite (execute_ok _ _ Hdb). unfold select_stories_by_hn_id.
    change (stories (tick_db w1)) with (stories w1). rewrite Hm. reflexivity.
  - assert (Hin : In r (filter (fun x => (story_hn_id x =? h)%Z) (stories w1)))
      by (rewrite Hm; now left).
    apply filter_In in Hin as [_ Hin]. now apply Z.eqb_eq.
Qed.

Lemma create_story_then_get_witness :
  let w := world_of [] [] true silent_llm no_item in
  let r := sample_story 1 40000001 "2025-09" in
  let w1 := with_tables [r] [] 2 (tick_db (tick_db w)) in
  create_story 40000001 (Some "Who is hiring?") 3 "2025-09" 3 10 None w
  = (Ok r, w1) /\
  db_fault w1 (db_calls w1) = None /\
  get_story_by_hn_id 40000001 w1 = (Ok (Some r), tick_db w1) /\
  story_hn_id r = 40000001%Z.
Proof.
  cbv zeta. split; [reflexivity|]. split; [reflexivity|].
  apply (create_story_then_get 40000001 (Some "Who is hiring?") 3 "2025-09"
           3 10 None (world_of [] [] true silent_llm no_item));
    reflexivity.
Defined.

(** *** Comments: single insert *)

(** X3.  Create, then look up: in a store that answers, with the unique
    constraint in place, [create_comment] for a forum ID that is not
    stored appends one row, pending and without email, and
    [get_comments_by_hn_id] for that ID then returns exactly that row. *)
Theorem create_comment_then_get
    (h sid : Z) (text : option string) (sd : json) (ct : option string)
    (w : World) :
  db_reliable 2 w ->
  comments_hn_id_unique w = true ->
  hn_id_taken h (comments w) = false ->
  exists (row : CommentRow) (w1 : World),
    create_comment h sid text sd ct w = (Ok row, w1) /\
    hn_id row = h /\ story_id row = sid /\ story_text row = text /\
    processed_status row = "pending" /\ email row = JNull /\
    comments w1 = (comments w ++ [row])%list /\
    get_comments_by_hn_id h w1 = (Ok [row], tick_db w1).
Proof.
  intros Hdb Hu Hfree.
  pose proof (db_reliable_head _ _ Hdb) as Hdb0.
  pose proof (db_reliable_head _ _ (db_reliable_tick _ _ Hdb)) as Hdb1.
  eexists. eexists. split.
  - unfold create_comment, try_except, bind.
    rewrite (execute_ok _ _ Hdb0). unfold upsert_comment_ignore.
    change (comments_hn_id_unique (tick_db w)) with (comments_hn_id_unique w).
    change (comments (tick_db w)) with (comments w).
    rewrite Hu. cbn [negb hn_id]. rewrite Hfree. reflexivity.
  - repeat split.
    rewrite get_comments_by_hn_id_run.
    cbn [db_fault db_calls set_comments with_tables comments].
    change (db_fault w (S (db_calls w)))
      with (db_fault (tick_db w) (db_calls (tick_db w))).
    rewrite Hdb1, filter_app, (filter_none_taken _ _ Hfree).
    cbn. rewrite Z.eqb_refl. reflexivity.
Qed.

Lemma create_comment_then_get_witness :
  let w := world_of [] [pending_comment 7 "Acme is hiring"] true
             silent_llm no_item in
  db_reliable 2 w /\
  comments_hn_id_unique w = true /\
  hn_id_taken 8 (comments w) = false /\
  exists (row : CommentRow) (w1 : World),
    create_comment 8 1 (Some "Bolt") JNull None w = (Ok row, w1) /\
    hn_id row = 8%Z /\ story_id row = 1%Z /\ story_text row = Some "Bolt" /\
    processed_status row = "pending" /\ email row = JNull /\
    comments w1 = (comments w ++ [row])%list /\
    get_comments_by_hn_id 8 w1 = (Ok [row], tick_db w1).
Proof.
  cbv zeta. split; [apply no_fault_reliable|].
  split; [reflexivity|]. split; [reflexivity|].
  apply (create_comment_then_get 8 1 (Some "Bolt") JNull None
           (world_of [] [pending_comment 7 "Acme is hiring"] true
              silent_llm no_item));
    [apply no_fault_reliable|reflexivity|reflexivity].
Defined.

(** X4.  The store skips a repeated forum ID without complaint, but
    [create_comment] does not: the empty answer makes it raise
    [DatabaseError] with the text of its own "Failed to create comment",
    wrapped once more; nothing is stored. *)
Theorem create_comment_duplicate_raises
    (h sid : Z) (text : option string) (sd : json) (ct : option string)
    (w : World) :
  db_fault w (db_calls w) = None ->
  comments_hn_id_unique w = true ->
  hn_id_taken h (comments w) = true ->
  create_comment h sid text sd ct w
  = (Raise (Exn DatabaseError
              "Error creating comment: Failed to create comment"),
     tick_db w).
Proof.
  intros Hdb Hu Htaken.
  unfold create_comment, try_except, bind.
  rewrite (execute_ok _ _ Hdb). unfold upsert_comment_ignore.
  change (comments_hn_id_unique (tick_db w)) with (comments_hn_id_unique w).
  change (comments (tick_db w)) with (comments w).
  rewrite Hu. cbn [negb hn_id]. rewrite Htaken. reflexivity.
Qed.

Lemma create_comment_duplicate_raises_witness :
  let w := world_of [] [pending_comment 7 "Acme is hiring"] true
             silent_llm no_item in
  db_fault w (db_calls w) = None /\
  comments_hn_id_unique w = true /\
  hn_id_taken 7 (comments w) = true /\
  create_comment 7 1 (Some "Acme is hiring") JNull None w
  = (Raise (Exn DatabaseError
              "Error creating comment: Failed to create comment"),
     tick_db w).
Proof.
  cbv zeta. split; [reflexivity|]. split; [reflexivity|].
  split; [reflexivity|].
  apply (create_comment_duplicate_raises 7 1 (Some "Acme is hiring") JNull
           None (world_of [] [pending_comment 7 "Acme is hiring"] true
                   silent_llm no_item)); reflexivity.
Defined.

(** *** Comments: the status update *)

Lemma some_row_iff_taken (h : Z) (u : UpdateData) (table : list CommentRow) :
  (0 <? List.length
          (map (apply_update u) (filter (fun c => (hn_id c =? h)%Z) table)))%nat
  = hn_id_taken h table.
Proof.
  induction table as [|c cs IH]; [reflexivity|].
  simpl. destruct (hn_id c =? h)%Z; [reflexivity|exact IH].
Qed.

Lemma update_rows_identity (h : Z) (u : UpdateData) (table : list CommentRow) :
  map identity_of
    (map (fun c => if (hn_id c =? h)%Z then apply_update u c else c) table)
  = map identity_of table.
Proof.
  rewrite map_map. apply map_ext. intros c.
  destruct (hn_id c =? h)%Z; reflexivity.
Qed.

Lemma update_rows_other (h h' : Z) (u : UpdateData) (table : list CommentRow) :
  h' <> h ->
  rows_with h'
    (map (fun c => if (hn_id c =? h)%Z then apply_update u c else c) table)
  = rows_with h' table.
Proof.
  intros Hne. induction table as [|c cs IH]; [reflexivity|].
  simpl. destruct (hn_id c =? h)%Z eqn:E.
  - apply Z.eqb_eq in E.
    change (hn_id (apply_update u c)) with (hn_id c).
    assert (Hc : (hn_id c =? h')%Z = false) by (apply Z.eqb_neq; congruence).
    rewrite Hc. exact IH.
  - destruct (hn_id c =? h')%Z; [f_equal|]; exact IH.
Qed.

Lemma update_rows_untaken (h : Z) (u : UpdateData) (table : list CommentRow) :
  hn_id_taken h table = false ->
  map (fun c => if (hn_id c =? h)%Z then apply_update u c else c) table
  = table.
Proof.
  induction table as [|c cs IH]; [reflexivity|].
  simpl. destruct (hn_id c =? h)%Z; [discriminate|].
  intros H. now rewrite IH.
Qed.

(** X5.  When the store answers, [update_comment_status] returns [True]
    exactly when some row carries the forum ID.  It never adds, drops or
    reorders rows, never touches the forum ID, the story link, the text or
    the timestamps of a row, and leaves the rows of every other forum ID
    as they are; for an unknown ID it returns [False] and changes nothing. *)
Theorem update_comment_status_result
    (comment_id : Z) (status : string) (sd : option dict) (w : World) :
  db_fault w (db_calls w) = None ->
  exists w' : World,
    update_comment_status comment_id status sd w
    = (Ok (hn_id_taken comment_id (comments w)), w') /\
    map identity_of (comments w') = map identity_of (comments w) /\
    (forall h, h <> comment_id ->
       rows_with h (comments w') = rows_with h (comments w)) /\
    (hn_id_taken comment_id (comments w) = false ->
       comments w' = comments w).
Proof.
  intros Hdb. eexists. split.
  - unfold update_comment_status, try_except, bind.
    rewrite (execute_ok _ _ Hdb). unfold update_comments_by_hn_id, ret.
    change (comments (tick_db w)) with (comments w).
    rewrite some_row_iff_taken. reflexivity.
  - cbn [comments set_comments with_tables].
    split; [apply update_rows_identity|].
    split; [intros h Hne; now apply update_rows_other|].
    apply update_rows_untaken.
Qed.

Lemma update_comment_status_result_witness :
  let w := world_of [] [pending_comment 7 "Acme is hiring"] true
             silent_llm no_item in
  db_fault w (db_calls w) = None /\
  exists w' : World,
    update_comment_status 42 "completed" (Some [("company", JStr "Acme")]) w
    = (Ok (hn_id_taken 42 (comments w)), w') /\
    map identity_of (comments w') = map identity_of (comments w) /\
    (forall h, h <> 42%Z ->
       rows_with h (comments w') = rows_with h (comments w)) /\
    (hn_id_taken 42 (comments w) = false -> comments w' = comments w).
Proof.
  cbv zeta. split; [reflexivity|].
  apply (update_comment_status_result 42 "completed"
           (Some [("company", JStr "Acme")])
           (world_of [] [pending_comment 7 "Acme is hiring"] true
              silent_llm no_item)).
  reflexivity.
Defined.

(** *** Comments: bulk insert *)

(** In a batch without collision no row repeats an ID of the table. *)
Lemma no_collision_untaken (batch : list CommentRow) :
  forall (table : list CommentRow) (h : Z),
    no_collision table batch = true -> hn_id_taken h table = true ->
    hn_id_taken h batch = false.
Proof.
  induction batch as [|b rest IH]; intros table h Hnc Ht; [reflexivity|].
  simpl in Hnc. apply andb_true_iff in Hnc as [Hb Hrest].
  apply negb_true_iff in Hb. simpl.
  destruct (hn_id b =? h)%Z eqn:E.
  - apply Z.eqb_eq in E. rewrite E in Hb. congruence.
  - apply (IH (table ++ [b])%list h Hrest).
    rewrite hn_id_taken_app, Ht. reflexivity.
Qed.

Lemma rows_with_app (h : Z) (t1 t2 : list CommentRow) :
  rows_with h (t1 ++ t2) = (rows_with h t1 ++ rows_with h t2)%list.
Proof. apply filter_app. Qed.

(** After a batch without collision is appended, each of its IDs selects
    exactly the row of the batch. *)
Lemma no_collision_rows (batch : list CommentRow) :
  forall (table : list CommentRow) (c : CommentRow),
    no_collision table batch = true -> In c batch ->
    rows_with (hn_id c) (table ++ batch) = [c].
Proof.
  induction batch as [|b rest IH]; intros table c Hnc Hin; [contradiction|].
  pose proof Hnc as Hnc0.
  simpl in Hnc. apply andb_true_iff in Hnc as [Hb Hrest].
  apply negb_true_iff in Hb.
  destruct Hin as [->|Hin].
  - rewrite rows_with_app. unfold rows_with at 1.
    rewrite (filter_none_taken _ _ Hb). simpl.
    rewrite Z.eqb_refl. f_equal.
    apply filter_none_taken.
    apply (no_collision_untaken rest (table ++ [c])%list (hn_id c) Hrest).
    rewrite hn_id_taken_app. simpl. rewrite Z.eqb_refl.
    now rewrite orb_true_r.
  - replace (table ++ b :: rest)%list with ((table ++ [b]) ++ rest)%list
      by (rewrite <- app_assoc; reflexivity).
    now apply IH.
Qed.

(** X6.  Insert, then look up: a batch in which no forum ID repeats a
    stored ID or an earlier row of the batch is stored whole, in order,
    after the rows already there; the call returns the size of the batch,
    and each of its forum IDs then selects exactly the row that was sent.
    The empty batch returns 0 without any request to the store. *)
Theorem batch_create_comments_then_get
    (batch : list CommentRow) (w : World) :
  (batch <> [] -> db_fault w (db_calls w) = None) ->
  no_collision (comments w) batch = true ->
  exists w' : World,
    batch_create_comments batch w
    = (Ok (Z.of_nat (List.length batch)), w') /\
    comments w' = (comments w ++ batch)%list /\
    stories w' = stories w /\
    (forall c, In c batch -> rows_with (hn_id c) (comments w') = [c]) /\
    (batch = [] -> w' = w).
Proof.
  intros Hdb Hnc. destruct batch as [|b rest].
  - exists w. repeat split.
    + simpl. now rewrite app_nil_r.
    + intros c [].
  - specialize (Hdb ltac:(discriminate)).
    eexists. split.
    + unfold batch_create_comments, try_except, bind.
      rewrite (execute_ok _ _ Hdb). unfold insert_comments.
      change (comments (tick_db w)) with (comments w).
      rewrite Hnc, andb_false_r. reflexivity.
    + cbn [comments stories set_comments with_tables].
      split; [reflexivity|]. split; [reflexivity|].
      split; [|discriminate].
      intros c Hin. now apply no_collision_rows.
Qed.

Lemma batch_create_comments_then_get_witness :
  let w := world_of [] [pending_comment 7 "Acme is hiring"] true
             silent_llm no_item in
  let batch := [pending_comment 8 "Bolt"; pending_comment 9 "Cask"] in
  (batch <> [] -> db_fault w (db_calls w) = None) /\
  no_collision (comments w) batch = true /\
  exists w' : World,
    batch_create_comments batch w
    = (Ok (Z.of_nat (List.length batch)), w') /\
    comments w' = (comments w ++ batch)%list /\
    stories w' = stories w /\
    (forall c, In c batch -> rows_with (hn_id c) (comments w') = [c]) /\
    (batch = [] -> w' = w).
Proof.
  cbv zeta. split; [reflexivity|]. split; [reflexivity|].
  apply (batch_create_comments_then_get
           [pending_comment 8 "Bolt"; pending_comment 9 "Cask"]
           (world_of [] [pending_comment 7 "Acme is hiring"] true
              silent_llm no_item)); reflexivity.
Defined.

(** *** Completed jobs of a month *)

(** X7.  When the store answers, [get_completed_jobs] returns, and only
    reads: a comment is in the answer exactly when it is stored with
    status "completed" and belongs to the first stored story of the month.
    Comments of a later story of the same month are never returned, and a
    month without story gives the empty list. *)
Theorem get_completed_jobs_first_story (m : string) (w : World) :
  db_reliable 2 w ->
  exists (jobs : list CommentRow) (w' : World),
    get_completed_jobs m w = (Ok jobs, w') /\
    comments w' = comments w /\ stories w' = stories w /\
    (forall c,
        In c jobs <->
        In c (comments w) /\ processed_status c = "completed" /\
        exists first others,
          filter (fun r => month r =? m) (stories w) = first :: others /\
          story_id c = id first).
Proof.
  intros Hdb.
  pose proof (db_reliable_head _ _ Hdb) as Hdb0.
  pose proof (db_reliable_head _ _ (db_reliable_tick _ _ Hdb)) as Hdb1.
  unfold get_completed_jobs, try_except, bind.
  rewrite (execute_ok _ _ Hdb0). unfold select_story_ids_by_month.
  change (stories (tick_db w)) with (stories w).
  destruct (filter (fun r => month r =? m) (stories w))
    as [|first others] eqn:Hm.
  - exists [], (tick_db w). repeat split; try contradiction.
    intros (_ & _ & f & o & Hfo & _). discriminate.
  - cbn [map]. rewrite (execute_ok _ _ Hdb1).
    unfold select_completed_of_story, ret.
    eexists. eexists. split; [reflexivity|].
    split; [reflexivity|]. split; [reflexivity|].
    intros c. change (comments (tick_db (tick_db w))) with (comments w).
    rewrite !filter_In, Z.eqb_eq, String.eqb_eq. split.
    + intros ((Hin & Hst) & Hsid). repeat split; try assumption.
      exists first, others. now split.
    + intros (Hin & Hst & f & o & Hfo & Hsid).
      injection Hfo as <- <-. now repeat split.
Qed.

(** A month with two stories: the completed comment of the second story
    is not returned. *)
Lemma get_completed_jobs_first_story_witness :
  let w := world_of
             [sample_story 1 100 "2025-09"; sample_story 2 200 "2025-09"]
             [sample_comment 11 1 "completed"; sample_comment 12 1 "pending";
              sample_comment 21 2 "completed"]
             true silent_llm no_item in
  db_reliable 2 w /\
  fst (get_completed_jobs "2025-09" w) = Ok [sample_comment 11 1 "completed"] /\
  exists (jobs : list CommentRow) (w' : World),
    get_completed_jobs "2025-09" w = (Ok jobs, w') /\
    comments w' = comments w /\ stories w' = stories w /\
    (forall c,
        In c jobs <->
        In c (comments w) /\ processed_status c = "completed" /\
        exists first others,
          filter (fun r => month r =? "2025-09") (stories w) = first :: others /\
          story_id c = id first).
Proof.
  cbv zeta. split; [apply no_fault_reliable|]. split; [reflexivity|].
  apply (get_completed_jobs_first_story "2025-09"
           (world_of
              [sample_story 1 100 "2025-09"; sample_story 2 200 "2025-09"]
              [sample_comment 11 1 "completed"; sample_comment 12 1 "pending";
               sample_comment 21 2 "completed"]
              true silent_llm no_item)).
  apply no_fault_reliable.
Defined.

(* ===================================================================== *)
(** ** More of services/hn_api_service.py *)
(* ===================================================================== *)

Lemma fetch_story_world (item_id : Z) (w : World) :
  snd (fetch_story item_id w) = tick_http w.
Proof.
  unfold fetch_story, try_except_only, bind, session_get.
  destruct (http w (http_calls w) item_id) as [response|err];
    [|reflexivity].
  destruct (status_code response =? 404)%Z; [reflexivity|].
  unfold raise_for_status, response_json.
  destruct (is_success response); [|reflexivity].
  destruct (body response); reflexivity.
Qed.

Lemma truthy_or_none (data : json) :
  (if truthy data then data else JNull) = JNull \/
  truthy (if truthy data then data else JNull) = true.
Proof. destruct (truthy data) eqn:E; [right; exact E|left; reflexivity]. Qed.

(** X8.  Each of [fetch_story] and [fetch_comment] makes exactly one
    request and touches nothing else.  What it returns is [None] or a
    truthy value (an empty or zero body becomes [None]); what it raises is
    [HNAPIError], or httpx's [HTTPStatusError], or the JSON decoder's
    error: a transport failure never leaves as httpx's [RequestError]. *)
Theorem fetch_item_outcomes (item_id : Z) (w : World) :
  snd (fetch_story item_id w) = tick_http w /\
  snd (fetch_comment item_id w) = tick_http w /\
  fetch_outcome (fst (fetch_story item_id w)) /\
  fetch_outcome (fst (fetch_comment item_id w)).
Proof.
  split; [apply fetch_story_world|]. split; [apply fetch_comment_world|].
  split.
  - unfold fetch_story, try_except_only, bind, session_get.
    destruct (http w (http_calls w) item_id) as [response|err];
      [|simpl; auto].
    destruct (status_code response =? 404)%Z; [simpl; auto|].
    unfold raise_for_status, response_json.
    destruct (is_success response); [|simpl; auto].
    destruct (body response); simpl; auto using truthy_or_none.
  - unfold fetch_comment, try_except_only, bind, session_get.
    destruct (http w (http_calls w) item_id) as [response|err];
      [|simpl; auto].
    destruct (status_code response =? 404)%Z; [simpl; auto|].
    unfold raise_for_status, response_json.
    destruct (is_success response); [|simpl; auto].
    destruct (body response); simpl; auto using truthy_or_none.
Qed.

(** *** The batch: requests and sizes *)

Lemma fetch_comments_step_world (item_id : Z) (valid : list json) (w : World) :
  snd (fetch_comments_step item_id valid w) = tick_http w.
Proof.
  rewrite fetch_comments_step_cases.
  pose proof (fetch_comment_world item_id w) as H.
  destruct (fetch_comment item_id w) as [[raw|e] w1]; simpl in H; subst w1.
  - destruct (negb (truthy raw)); [reflexivity|].
    destruct raw; try reflexivity.
    destruct (is_True (dict_get "deleted" items)); reflexivity.
  - destruct (skipped_class (class_of e)); reflexivity.
Qed.

Lemma fetch_comments_step_length (item_id : Z) (valid valid' : list json)
    (w w' : World) :
  fetch_comments_step item_id valid w = (Ok valid', w') ->
  List.length valid' <= S (List.length valid).
Proof.
  rewrite fetch_comments_step_cases.
  destruct (fetch_comment item_id w) as [[raw|e] w1].
  - destruct (negb (truthy raw)).
    + intros H; injection H as <- _; lia.
    + destruct raw; try discriminate.
      destruct (is_True (dict_get "deleted" items));
        intros H; injection H as <- _; [lia|].
      rewrite length_app. simpl. lia.
  - destruct (skipped_class (class_of e)); [|discriminate].
    intros H; injection H as <- _; lia.
Qed.

Lemma fetch_comments_step_raise_class (item_id : Z) (valid : list json)
    (w w' : World) (e : exn) :
  fetch_comments_step item_id valid w = (Raise e, w') ->
  skipped_class (class_of e) = false.
Proof.
  rewrite fetch_comments_step_cases.
  destruct (fetch_comment item_id w) as [[raw|e0] w1].
  - destruct (negb (truthy raw)); [discriminate|].
    destruct raw; try discriminate;
      try (intros H; injection H as <- _; reflexivity).
    destruct (is_True (dict_get "deleted" items)); discriminate.
  - destruct (skipped_class (class_of e0)) eqn:E; [discriminate|].
    intros H; injection H as <- _; exact E.
Qed.

Lemma fetch_comments_loop_counts (comment_ids : list Z) :
  forall (valid : list json) (w : World),
    match fetch_comments_loop comment_ids valid w with
    | (Ok res, w') =>
        http_calls w' = http_calls w + List.length comment_ids /\
        List.length res <= List.length valid + List.length comment_ids
    | (Raise e, w') =>
        http_calls w < http_calls w' <= http_calls w + List.length comment_ids
        /\ skipped_class (class_of e) = false
    end /\
    stories (snd (fetch_comments_loop comment_ids valid w)) = stories w /\
    comments (snd (fetch_comments_loop comment_ids valid w)) = comments w.
Proof.
  induction comment_ids as [|item rest IH]; intros valid w.
  - simpl. unfold ret. repeat split; lia.
  - simpl fetch_comments_loop. unfold bind.
    pose proof (fetch_comments_step_world item valid w) as Hw.
    destruct (fetch_comments_step item valid w) as [[valid1|e] w1] eqn:Hs;
      simpl in Hw; subst w1.
    + pose proof (fetch_comments_step_length _ _ _ _ _ Hs) as Hlen.
      specialize (IH valid1 (tick_http w)).
      destruct (fetch_comments_loop rest valid1 (tick_http w))
        as [[res|e] w2]; simpl in *;
        destruct IH as ((Hc1 & Hc2) & Hst & Hcm);
        repeat split; try assumption; lia.
    + simpl. repeat split; try lia.
      exact (fetch_comments_step_raise_class _ _ _ _ _ Hs).
Qed.

Lemma fetch_comments_batch_counts_aux (comment_ids : list Z) (w : World) :
  match fetch_comments_batch comment_ids w with
  | (Ok res, w') =>
      http_calls w' = http_calls w + List.length comment_ids /\
      List.length res <= List.length comment_ids
  | (Raise e, w') =>
      http_calls w < http_calls w' <= http_calls w + List.length comment_ids /\
      skipped_class (class_of e) = false
  end /\
  stories (snd (fetch_comments_batch comment_ids w)) = stories w /\
  comments (snd (fetch_comments_batch comment_ids w)) = comments w.
Proof.
  exact (fetch_comments_loop_counts comment_ids [] w).
Qed.

(** X9.  [fetch_comments_batch] touches no table.  When it returns, it has
    made exactly one request per ID and returns at most as many payloads
    as IDs.  When it raises, it has made at least one request and at most
    one per ID, and the exception is of a class its handler does not
    name. *)
Theorem fetch_comments_batch_counts (comment_ids : list Z) (w : World) :
  match fetch_comments_batch comment_ids w with
  | (Ok res, w') =>
      http_calls w' = http_calls w + List.length comment_ids /\
      List.length res <= List.length comment_ids
  | (Raise e, w') =>
      http_calls w < http_calls w' <= http_calls w + List.length comment_ids /\
      skipped_class (class_of e) = false
  end /\
  stories (snd (fetch_comments_batch comment_ids w)) = stories w /\
  comments (snd (fetch_comments_batch comment_ids w)) = comments w.
Proof.
  exact (fetch_comments_loop_counts comment_ids [] w).
Qed.

(** *** The batch: order and composition *)

Lemma fetch_comments_step_acc (item_id : Z) (valid : list json) (w : World) :
  fetch_comments_step item_id valid w
  = match fetch_comments_step item_id [] w with
    | (Ok r, w') => (Ok (valid ++ r)%list, w')
    | (Raise e, w') => (Raise e, w')
    end.
Proof.
  rewrite !fetch_comments_step_cases.
  destruct (fetch_comment item_id w) as [[raw|e] w1].
  - destruct (negb (truthy raw)); [now rewrite app_nil_r|].
    destruct raw; try reflexivity.
    destruct (is_True (dict_get "deleted" items)); [|reflexivity].
    now rewrite app_nil_r.
  - destruct (skipped_class (class_of e)); [|reflexivity].
    now rewrite app_nil_r.
Qed.

Lemma fetch_comments_loop_acc (comment_ids : list Z) :
  forall (valid : list json) (w : World),
    fetch_comments_loop comment_ids valid w
    = match fetch_comments_loop comment_ids [] w with
      | (Ok r, w') => (Ok (valid ++ r)%list, w')
      | (Raise e, w') => (Raise e, w')
      end.
Proof.
  induction comment_ids as [|item rest IH]; intros valid w.
  - simpl. unfold ret. now rewrite app_nil_r.
  - simpl fetch_comments_loop. unfold bind.
    rewrite (fetch_comments_step_acc item valid w).
    destruct (fetch_comments_step item [] w) as [[r1|e] w1]; [|reflexivity].
    rewrite (IH (valid ++ r1)%list w1), (IH r1 w1).
    destruct (fetch_comments_loop rest [] w1) as [[r|e] w2]; [|reflexivity].
    now rewrite app_assoc.
Qed.

Lemma fetch_comments_loop_app (ids1 ids2 : list Z) :
  forall (valid : list json) (w : World),
    fetch_comments_loop (ids1 ++ ids2) valid w
    = bind (fetch_comments_loop ids1 valid)
        (fun v => fetch_comments_loop ids2 v) w.
Proof.
  induction ids1 as [|item rest IH]; intros valid w.
  - reflexivity.
  - simpl. unfold bind.
    destruct (fetch_comments_step item valid w) as [[v1|e] w1]; [|reflexivity].
    rewrite IH. reflexivity.
Qed.

(** X10.  Fetching a list of IDs in one batch is fetching a first part and
    then the rest: the payloads of the first part come first, in the order
    of the IDs, followed by those of the rest; and a failure that ends the
    first part ends the whole batch at the same request. *)
Theorem fetch_comments_batch_app (ids1 ids2 : list Z) (w : World) :
  fetch_comments_batch (ids1 ++ ids2) w
  = match fetch_comments_batch ids1 w with
    | (Ok r1, w1) =>
        match fetch_comments_batch ids2 w1 with
        | (Ok r2, w2) => (Ok (r1 ++ r2)%list, w2)
        | (Raise e, w2) => (Raise e, w2)
        end
    | (Raise e, w1) => (Raise e, w1)
    end.
Proof.
  unfold fetch_comments_batch.
  rewrite fetch_comments_loop_app. unfold bind.
  destruct (fetch_comments_loop ids1 [] w) as [[r1|e] w1]; [|reflexivity].
  apply fetch_comments_loop_acc.
Qed.

(** *** The batch: where the payloads come from *)

Lemma fetch_comment_ok_inv (item_id : Z) (w w' : World) (raw : json) :
  fetch_comment item_id w = (Ok raw, w') -> truthy raw = true ->
  exists response,
    http w (http_calls w) item_id = Reply response /\
    is_success response = true /\ body response = Json raw.
Proof.
  unfold fetch_comment, try_except_only, bind, session_get.
  destruct (http w (http_calls w) item_id) as [response|err];
    [|discriminate].
  destruct (status_code response =? 404)%Z; [discriminate|].
  unfold raise_for_status, response_json.
  destruct (is_success response) eqn:Hok; [|discriminate].
  destruct (body response) as [data|derr] eqn:Hb; [|discriminate].
  unfold ret. intros H Ht. injection H as <- _.
  exists response. destruct (truthy data); [auto|discriminate].
Qed.

Lemma fetch_comments_loop_served (all : list Z) (w : World) (rest : list Z) :
  forall (valid res : list json) (w1 w' : World),
    http w1 = http w -> incl rest all ->
    http_calls w <= http_calls w1 ->
    http_calls w1 + List.length rest = http_calls w + List.length all ->
    Forall (served w all (http_calls w) (List.length all)) valid ->
    fetch_comments_loop rest valid w1 = (Ok res, w') ->
    Forall (served w all (http_calls w) (List.length all)) res.
Proof.
  induction rest as [|item rest IH]; intros valid res w1 w' Hhttp Hincl Hlow Hpos Hv.
  - simpl. unfold ret. intros H; injection H as <- _; exact Hv.
  - simpl fetch_comments_loop. unfold bind.
    pose proof (fetch_comments_step_world item valid w1) as Hw.
    destruct (fetch_comments_step item valid w1) as [[valid1|e] w2] eqn:Hs;
      [|discriminate].
    simpl in Hw; subst w2.
    apply IH.
    + exact Hhttp.
    + intros x Hx. apply Hincl. now right.
    + simpl. lia.
    + simpl in *. lia.
    + revert Hs. rewrite fetch_comments_step_cases.
      destruct (fetch_comment item w1) as [[raw|e] w2] eqn:Hf.
      * destruct (truthy raw) eqn:Ht; cbn [negb].
        2:{ intros H; injection H as <- _; exact Hv. }
        destruct raw; try discriminate.
        destruct (is_True (dict_get "deleted" items));
          intros H; injection H as <- _; [exact Hv|].
        apply Forall_app. split; [exact Hv|].
        constructor; [|constructor].
        destruct (fetch_comment_ok_inv _ _ _ _ Hf Ht)
          as (response & Hr & Hok & Hb).
        exists (http_calls w1), item, response.
        rewrite <- Hhttp. repeat split; try assumption.
        -- simpl in Hpos. lia.
        -- apply Hincl. now left.
      * destruct (skipped_class (class_of e)); [|discriminate].
        intros H; injection H as <- _; exact Hv.
Qed.

(** X11.  Nothing is made up: every payload [fetch_comments_batch]
    returns is the JSON body of a successful (2xx) reply that the forum
    gave, during this batch, to a request for one of the IDs of the
    list. *)
Theorem fetch_comments_batch_served
    (comment_ids : list Z) (w w' : World) (res : list json) :
  fetch_comments_batch comment_ids w = (Ok res, w') ->
  Forall (served w comment_ids (http_calls w) (List.length comment_ids)) res.
Proof.
  unfold fetch_comments_batch.
  apply (fetch_comments_loop_served comment_ids w comment_ids [] res w w');
    auto using incl_refl.
Qed.

Lemma fetch_comments_batch_served_witness :
  let w := world_of [] [] true silent_llm thread_forum in
  fetch_comments_batch [1; 2; 3]%Z w
  = (Ok [comment_payload 1 "Acme is hiring"; comment_payload 3 "Bolt"],
     tick_http (tick_http (tick_http w))) /\
  Forall (served w [1; 2; 3]%Z (http_calls w) 3)
    [comment_payload 1 "Acme is hiring"; comment_payload 3 "Bolt"].
Proof.
  cbv zeta. split; [reflexivity|].
  apply (fetch_comments_batch_served [1; 2; 3]%Z
           (world_of [] [] true silent_llm thread_forum)
           (tick_http (tick_http (tick_http
              (world_of [] [] true silent_llm thread_forum))))).
  reflexivity.
Defined.

(* ===================================================================== *)
(** ** More of services/processing_service.py *)
(* ===================================================================== *)

(** *** The write-back helper *)

Lemma update_comment_status_run (comment_id : Z) (status : string)
    (sd : option dict) (w : World) :
  update_comment_status comment_id status sd w
  = match db_fault w (db_calls w) with
    | Some msg =>
        (Raise (Exn DatabaseError ("Error updating comment status: " ++ msg)),
         tick_db w)
    | None =>
        (Ok (hn_id_taken comment_id (comments w)),
         set_comments
           (map (fun c => if (hn_id c =? comment_id)%Z
                          then apply_update (build_update_data status sd) c
                          else c) (comments w)) (tick_db w))
    end.
Proof.
  unfold update_comment_status, try_except, bind, execute.
  destruct (db_fault w (db_calls w)); [reflexivity|].
  unfold update_comments_by_hn_id, ret.
  change (comments (tick_db w)) with (comments w).
  rewrite some_row_iff_taken. reflexivity.
Qed.

(** X12.  [_update_comment_with_results] never raises.  If the store takes
    the write, one request is made and the result says whether a row
    carries the ID.  If the store fails the write, the result is [False]
    and one fallback write is tried: when it is taken, every row with the
    ID ends in status "error" with payload and email null; when it fails
    too, the table is as it was. *)
Theorem update_with_results_never_raises
    (comment_id : Z) (sd : option dict) (status : string) (w : World) :
  exists (b : bool) (w' : World),
    _update_comment_with_results comment_id sd status w = (Ok b, w') /\
    match db_fault w (db_calls w) with
    | None =>
        b = hn_id_taken comment_id (comments w) /\
        db_calls w' = S (db_calls w)
    | Some _ =>
        b = false /\ db_calls w' = S (S (db_calls w)) /\
        match db_fault w (S (db_calls w)) with
        | None =>
            Forall (fun c => hn_id c = comment_id -> error_shape c)
              (comments w')
        | Some _ => comments w' = comments w
        end
    end.
Proof.
  unfold _update_comment_with_results, try_except, bind, ret.
  rewrite update_comment_status_run.
  destruct (db_fault w (db_calls w)) as [msg|] eqn:H1.
  - rewrite update_comment_status_run.
    change (db_fault (tick_db w) (db_calls (tick_db w)))
      with (db_fault w (S (db_calls w))).
    destruct (db_fault w (S (db_calls w))) as [msg2|] eqn:H2.
    + eexists. eexists. split; [reflexivity|]. repeat split.
    + eexists. eexists. split; [reflexivity|]. repeat split.
      cbn [comments set_comments with_tables tick_db].
      apply Forall_forall. intros c Hc Hid.
      apply in_map_iff in Hc as (c0 & <- & _).
      destruct (hn_id c0 =? comment_id)%Z eqn:E.
      * repeat split.
      * apply Z.eqb_neq in E. contradiction.
  - eexists. eexists. split; [reflexivity|]. split; reflexivity.
Qed.

(** A store that fails the first write and takes the fallback. *)
Example update_with_results_fallback :
  let w := world_of [] [pending_comment 7 "Acme is hiring"] true
             silent_llm no_item in
  let flaky :=
    {| stories := stories w; comments := comments w;
       story_seq := story_seq w;
       comments_hn_id_unique := true;
       db_calls := 0;
       db_fault := fun n => if Nat.eqb n 0 then Some "timeout" else None;
       llm_calls := 0; llm := silent_llm;
       http_calls := 0; http := no_item |} in
  fst (_update_comment_with_results 7 (Some [("company", JStr "Acme")])
         "completed" flaky) = Ok false /\
  map outcome
    (comments (snd (_update_comment_with_results 7
                      (Some [("company", JStr "Acme")]) "completed" flaky)))
  = [("error", JNull, JNull)].
Proof. split; reflexivity. Qed.

(** *** Single mode *)

(** What the write-back helper leaves alone, and how many requests it
    makes. *)
Lemma update_with_results_frame (comment_id : Z) (sd : option dict)
    (status : string) (w : World) :
  exists (b : bool) (w' : World),
    _update_comment_with_results comment_id sd status w = (Ok b, w') /\
    stories w' = stories w /\ llm_calls w' = llm_calls w /\
    http_calls w' = http_calls w /\
    db_calls w < db_calls w' <= db_calls w + 2 /\
    map identity_of (comments w') = map identity_of (comments w).
Proof.
  unfold _update_comment_with_results, try_except, bind, ret.
  rewrite update_comment_status_run.
  destruct (db_fault w (db_calls w)) as [msg|].
  - rewrite update_comment_status_run.
    destruct (db_fault (tick_db w) (db_calls (tick_db w))) as [msg2|];
      eexists; eexists; (split; [reflexivity|]);
      cbn [stories comments llm_calls http_calls db_calls
           set_comments with_tables tick_db];
      repeat split; try lia.
    apply update_rows_identity.
  - eexists; eexists; (split; [reflexivity|]);
      cbn [stories comments llm_calls http_calls db_calls
           set_comments with_tables tick_db];
      repeat split; try lia.
    apply update_rows_identity.
Qed.

(** X13.  [process_single_comment] never raises: whatever the store and
    the model do, it returns a dictionary.  On the way it makes at most
    one model call (no retry), between one and three store requests, and
    no forum request; it never touches the stories, and never adds, drops
    or re-identifies a comment row. *)
Theorem process_single_comment_never_raises (hn_id0 : Z) (w : World) :
  exists (r : SingleResult) (w' : World),
    process_single_comment hn_id0 w = (Ok r, w') /\
    llm_calls w <= llm_calls w' <= llm_calls w + 1 /\
    db_calls w < db_calls w' <= db_calls w + 3 /\
    http_calls w' = http_calls w /\
    stories w' = stories w /\
    map identity_of (comments w') = map identity_of (comments w).
Proof.
  unfold process_single_comment, try_except, bind.
  rewrite get_comments_by_hn_id_run.
  destruct (db_fault w (db_calls w)) as [msg|].
  { eexists; eexists; (split; [reflexivity|]); simpl; repeat split; lia. }
  destruct (filter (fun c => (hn_id c =? hn_id0)%Z) (comments w))
    as [|comment others].
  { eexists; eexists; (split; [reflexivity|]); simpl; repeat split; lia. }
  destruct (story_text comment) as [text|].
  2:{ eexists; eexists; (split; [reflexivity|]); simpl; repeat split; lia. }
  cbn [check_sliceable _clean_html_text ret].
  unfold _extract_job_data_with_claude.
  destruct (update_with_results_frame (hn_id comment)
              (llm (tick_db w) (llm_calls (tick_db w))
                 (fmt (Some (clean_str text))))
              default_status (tick_llm (tick_db w)))
    as (b & w' & -> & Hst & Hllm & Hhttp & Hdb & Hid).
  eexists; eexists; (split; [reflexivity|]).
  simpl in *. repeat split; try assumption; lia.
Qed.

(** X14.  Single mode, the good case.  The store answers, a row with the
    forum ID and a text exists, and the model, given the normalised text,
    yields a dictionary: the call returns success with that dictionary and
    [database_updated = True], after exactly one model call, and every row
    with the ID is completed and holds the dictionary, and the email of
    the dictionary when it has one. *)
Theorem process_single_comment_completed
    (h : Z) (w : World) (c : CommentRow) (others : list CommentRow)
    (text : string) (d : dict) :
  db_reliable 2 w ->
  rows_with h (comments w) = c :: others ->
  story_text c = Some text ->
  llm w (llm_calls w) (clean_str text) = Some d ->
  exists w' : World,
    process_single_comment h w = (Ok (Success h (Some d) true), w') /\
    llm_calls w' = S (llm_calls w) /\
    Forall (fun r => hn_id r = h ->
                     processed_status r = "completed" /\
                     structured_data r = JObj d /\
                     (dict_get "email" d <> JNull ->
                      email r = dict_get "email" d))
      (comments w').
Proof.
  intros Hdb Hrows Htext Hllm.
  assert (Hc : hn_id c = h).
  { assert (Hin : In c (rows_with h (comments w)))
      by (rewrite Hrows; now left).
    apply filter_In in Hin as [_ Hin]. now apply Z.eqb_eq. }
  assert (Htaken : hn_id_taken h (comments w) = true).
  { apply existsb_exists. exists c. split; [|now apply Z.eqb_eq].
    assert (Hin : In c (rows_with h (comments w)))
      by (rewrite Hrows; now left).
    now apply filter_In in Hin as [Hin _]. }
  pose proof (db_reliable_head _ _ Hdb) as Hdb0.
  pose proof (db_reliable_head _ _ (db_reliable_tick _ _ Hdb)) as Hdb1.
  unfold rows_with in Hrows.
  eexists. split; [|split].
  - unfold process_single_comment, try_except, bind.
    rewrite get_comments_by_hn_id_run, Hdb0, Hrows, Htext.
    cbn [check_sliceable _clean_html_text ret].
    unfold _extract_job_data_with_claude.
    change (llm (tick_db w) (llm_calls (tick_db w)) (fmt (Some (clean_str text))))
      with (llm w (llm_calls w) (clean_str text)).
    rewrite Hllm.
    unfold _update_comment_with_results, try_except, bind.
    rewrite update_comment_status_run.
    change (db_fault (tick_llm (tick_db w)) (db_calls (tick_llm (tick_db w))))
      with (db_fault (tick_db w) (db_calls (tick_db w))).
    rewrite Hdb1.
    change (comments (tick_llm (tick_db w))) with (comments w).
    rewrite Hc, Htaken. reflexivity.
  - reflexivity.
  - cbn [comments set_comments with_tables].
    apply Forall_forall. intros r Hr Hid.
    apply in_map_iff in Hr as (r0 & <- & _).
    destruct (hn_id r0 =? h)%Z eqn:E.
    + split; [reflexivity|]. split; [reflexivity|].
      intros Hmail. rewrite email_apply_update. cbn [build_update_data upd_email].
      destruct (dict_get "email" d); try reflexivity. contradiction.
    + apply Z.eqb_neq in E. contradiction.
Qed.

Lemma process_single_comment_completed_witness :
  let d := [("company", JStr "Acme"); ("email", JStr "jobs@acme.io")] in
  let model := fun (_ : nat) (text : string) =>
                 if text =? "Acme is hiring: https://acme.io/jobs"
                 then Some d else None in
  let c := pending_comment 7 "Acme is hiring: https:&#x2F;&#x2F;acme.io&#x2F;jobs" in
  let w := world_of [] [c] true model no_item in
  db_reliable 2 w /\
  rows_with 7 (comments w) = [c] /\
  story_text c = Some "Acme is hiring: https:&#x2F;&#x2F;acme.io&#x2F;jobs" /\
  llm w (llm_calls w)
    (clean_str "Acme is hiring: https:&#x2F;&#x2F;acme.io&#x2F;jobs") = Some d /\
  exists w' : World,
    process_single_comment 7 w = (Ok (Success 7 (Some d) true), w') /\
    llm_calls w' = S (llm_calls w) /\
    Forall (fun r => hn_id r = 7%Z ->
                     processed_status r = "completed" /\
                     structured_data r = JObj d /\
                     (dict_get "email" d <> JNull ->
                      email r = dict_get "email" d))
      (comments w').
Proof.
  cbv zeta. split; [apply no_fault_reliable|]. split; [reflexivity|].
  split; [reflexivity|]. split; [reflexivity|].
  apply (process_single_comment_completed 7 _
           (pending_comment 7
              "Acme is hiring: https:&#x2F;&#x2F;acme.io&#x2F;jobs") []
           "Acme is hiring: https:&#x2F;&#x2F;acme.io&#x2F;jobs");
    [apply no_fault_reliable|reflexivity|reflexivity|reflexivity].
Defined.

(** X15.  Single mode on a row whose text is null: the slice taken for the
    log line raises [TypeError], so the call returns the failure
    dictionary with that text; the model is not called and nothing is
    written. *)
Theorem process_single_comment_null_text
    (h : Z) (w : World) (c : CommentRow) (others : list CommentRow) :
  db_fault w (db_calls w) = None ->
  rows_with h (comments w) = c :: others ->
  story_text c = None ->
  process_single_comment h w
  = (Ok (Failure h "'NoneType' object is not subscriptable"), tick_db w).
Proof.
  intros Hdb Hrows Htext. unfold rows_with in Hrows.
  unfold process_single_comment, try_except, bind.
  rewrite get_comments_by_hn_id_run, Hdb, Hrows, Htext. reflexivity.
Qed.

Lemma process_single_comment_null_text_witness :
  let w := world_of [] [textless_comment 7] true silent_llm no_item in
  db_fault w (db_calls w) = None /\
  rows_with 7 (comments w) = [textless_comment 7] /\
  story_text (textless_comment 7) = None /\
  process_single_comment 7 w
  = (Ok (Failure 7 "'NoneType' object is not subscriptable"), tick_db w).
Proof.
  cbv zeta. split; [reflexivity|]. split; [reflexivity|].
  split; [reflexivity|].
  apply (process_single_comment_null_text 7
           (world_of [] [textless_comment 7] true silent_llm no_item)
           (textless_comment 7) []); reflexivity.
Defined.

(** *** Bulk mode: what it may write *)

Lemma bulk_change_refl (pending : list CommentRow) (c : CommentRow) :
  bulk_change pending c c.
Proof. repeat split. now left. Qed.

Lemma identity_hn_id (a b : CommentRow) :
  identity_of a = identity_of b -> hn_id a = hn_id b.
Proof. unfold identity_of. intros H. now injection H. Qed.

Lemma bulk_change_trans (pending : list CommentRow) (a b c : CommentRow) :
  bulk_change pending a b -> bulk_change pending b c ->
  bulk_change pending a c.
Proof.
  intros (Hi1 & Hs1 & Hf1) (Hi2 & Hs2 & Hf2). split; [congruence|]. split.
  - exact (kept_or_shaped_trans _ _ _ Hs1 Hs2).
  - intros Hout. rewrite (Hf1 Hout) in *. exact (Hf2 Hout).
Qed.

Lemma update_comment_status_bulk (pending : list CommentRow)
    (comment_id : Z) (status : string) (sd : option dict) (w : World) :
  hn_id_taken comment_id pending = true ->
  (forall c, kept_or_shaped c (apply_update (build_update_data status sd) c)) ->
  Forall2 (bulk_change pending) (comments w)
    (comments (snd (update_comment_status comment_id status sd w))).
Proof.
  intros Hin Hshape. rewrite update_comment_status_comments.
  destruct (db_fault w (db_calls w)).
  - apply Forall2_same, bulk_change_refl.
  - induction (comments w) as [|c cs IH]; constructor; [|exact IH].
    destruct (hn_id c =? comment_id)%Z eqn:E;
      [|apply bulk_change_refl].
    apply Z.eqb_eq in E. split; [reflexivity|]. split; [apply Hshape|].
    rewrite E, Hin. discriminate.
Qed.

Lemma _update_comment_with_results_bulk (pending : list CommentRow)
    (comment_id : Z) (sd : option dict) (status : string) (w : World) :
  hn_id_taken comment_id pending = true ->
  (forall c, kept_or_shaped c (apply_update (build_update_data status sd) c)) ->
  Forall2 (bulk_change pending) (comments w)
    (comments (snd (_update_comment_with_results comment_id sd status w))).
Proof.
  intros Hin Hshape.
  pose proof (update_comment_status_bulk pending comment_id status sd w
                Hin Hshape) as H1.
  unfold _update_comment_with_results, try_except, bind, ret.
  destruct (update_comment_status comment_id status sd w) as [[b|e] w1];
    simpl in *; [exact H1|].
  pose proof (update_comment_status_bulk pending comment_id "error" None w1
                Hin error_update_shaped) as H2.
  destruct (update_comment_status comment_id "error" None w1) as [[b|e'] w2];
    simpl in *;
    exact (Forall2_chain _ (bulk_change_trans pending) _ _ _ H1 H2).
Qed.

Lemma process_pending_step_bulk (pending : list CommentRow)
    (comment : CommentRow) (s : Summary) (w : World) :
  hn_id_taken (hn_id comment) pending = true ->
  Forall2 (bulk_change pending) (comments w)
    (comments (snd (process_pending_step comment s w))).
Proof.
  intros Hin.
  unfold process_pending_step, try_except, bind,
    _extract_job_data_with_claude.
  destruct (llm w (llm_calls w) (fmt (_clean_html_text (story_text comment))))
    as [d|].
  - pose proof (_update_comment_with_results_bulk pending (hn_id comment)
                  (Some d) "completed" (tick_llm w) Hin
                  (completed_update_shaped d)) as H.
    destruct (_update_comment_with_results (hn_id comment) (Some d)
                "completed" (tick_llm w)) as [[b|e] w'];
      [destruct b|]; exact H.
  - pose proof (_update_comment_with_results_bulk pending (hn_id comment)
                  None "error" (tick_llm w) Hin error_update_shaped) as H.
    destruct (_update_comment_with_results (hn_id comment) None
                "error" (tick_llm w)) as [[b|e] w']; exact H.
Qed.

Lemma process_pending_loop_bulk (pending rest : list CommentRow) :
  forall (s : Summary) (w : World),
    (forall c, In c rest -> hn_id_taken (hn_id c) pending = true) ->
    Forall2 (bulk_change pending) (comments w)
      (comments (snd (process_pending_loop rest s w))).
Proof.
  induction rest as [|comment rest IH]; intros s w Hrest.
  - apply Forall2_same, bulk_change_refl.
  - simpl process_pending_loop. unfold bind.
    pose proof (process_pending_step_bulk pending comment s w
                  (Hrest comment (or_introl eq_refl))) as H1.
    destruct (process_pending_step comment s w) as [[s1|e] w1];
      simpl in H1; [|exact H1].
    refine (Forall2_chain _ (bulk_change_trans pending) _ _ _ H1 _).
    apply IH. intros c Hc. apply Hrest. now right.
Qed.

Lemma taken_of_member (c : CommentRow) (rows : list CommentRow) :
  In c rows -> hn_id_taken (hn_id c) rows = true.
Proof.
  intros Hin. apply existsb_exists. exists c. split; [exact Hin|].
  apply Z.eqb_refl.
Qed.

(** What a round of the bulk loop leaves alone, and what it costs. *)
Lemma process_pending_step_frame (comment : CommentRow) (s : Summary)
    (w : World) :
  stories (snd (process_pending_step comment s w)) = stories w /\
  llm_calls (snd (process_pending_step comment s w)) = S (llm_calls w) /\
  http_calls (snd (process_pending_step comment s w)) = http_calls w /\
  db_calls w < db_calls (snd (process_pending_step comment s w))
    <= db_calls w + 2.
Proof.
  unfold process_pending_step, try_except, bind,
    _extract_job_data_with_claude.
  destruct (llm w (llm_calls w) (fmt (_clean_html_text (story_text comment))))
    as [d|].
  - destruct (update_with_results_frame (hn_id comment) (Some d) "completed"
                (tick_llm w)) as (b & w2 & -> & Hs & Hl & Hh & Hd & _).
    destruct b; simpl in *; repeat split; try assumption; lia.
  - destruct (update_with_results_frame (hn_id comment) None "error"
                (tick_llm w)) as (b & w2 & -> & Hs & Hl & Hh & Hd & _).
    simpl in *; repeat split; try assumption; lia.
Qed.

Lemma process_pending_loop_frame (rows : list CommentRow) :
  forall (s : Summary) (w : World),
    stories (snd (process_pending_loop rows s w)) = stories w /\
    llm_calls (snd (process_pending_loop rows s w))
    = llm_calls w + List.length rows /\
    http_calls (snd (process_pending_loop rows s w)) = http_calls w /\
    db_calls w + List.length rows
    <= db_calls (snd (process_pending_loop rows s w))
    <= db_calls w + 2 * List.length rows.
Proof.
  induction rows as [|c rest IH]; intros s w.
  - simpl. repeat split; lia.
  - simpl process_pending_loop. unfold bind.
    pose proof (process_pending_step_frame c s w) as Hstep.
    destruct (process_pending_step_counts c s w) as (s1 & w1 & Hrun & _ & _).
    rewrite Hrun in *. simpl in Hstep.
    destruct Hstep as (Hs & Hl & Hh & Hd).
    destruct (IH s1 w1) as (Hs' & Hl' & Hh' & Hd').
    simpl List.length. repeat split; try congruence; lia.
Qed.

(** X16.  What a bulk run may write, whatever the store and the model do:
    row by row, the table after [process_pending_comments] has the same
    forum ID, story link, text and timestamps as before; each row is as
    it was, or is completed with a payload, or is in error with payload
    and email null; and a row whose forum ID is not the ID of one of the
    pending rows the run fetched is exactly as it was.  The stories are
    not touched. *)
Theorem process_pending_comments_writes (w : World) :
  Forall2 (bulk_change (pending_rows w)) (comments w)
    (comments (snd (process_pending_comments w))) /\
  stories (snd (process_pending_comments w)) = stories w.
Proof.
  unfold process_pending_comments, bind.
  rewrite get_pending_comments_run.
  destruct (db_fault w (db_calls w)).
  - split; [apply Forall2_same, bulk_change_refl|reflexivity].
  - split.
    + apply (process_pending_loop_bulk (pending_rows w) (pending_rows w)
               _ (tick_db w)).
      intros c. apply taken_of_member.
    + apply (process_pending_loop_frame (pending_rows w) _ (tick_db w)).
Qed.

(** X17.  What a bulk run costs.  If the fetch of the pending rows fails,
    the model is not called and nothing is written.  Otherwise the run
    makes exactly one model call per fetched row (no retry), at most 1000
    of them, and between one and two store writes per row; it makes no
    forum request. *)
Theorem process_pending_comments_cost (w : World) :
  List.length (pending_rows w) <= 1000 /\
  http_calls (snd (process_pending_comments w)) = http_calls w /\
  match process_pending_comments w with
  | (Ok _, w') =>
      llm_calls w' = llm_calls w + List.length (pending_rows w) /\
      S (db_calls w) + List.length (pending_rows w) <= db_calls w'
        <= S (db_calls w) + 2 * List.length (pending_rows w)
  | (Raise _, w') =>
      llm_calls w' = llm_calls w /\ comments w' = comments w /\
      db_calls w' = S (db_calls w)
  end.
Proof.
  split; [apply firstn_le_length|].
  unfold process_pending_comments, bind.
  rewrite get_pending_comments_run.
  destruct (db_fault w (db_calls w)).
  - repeat split.
  - pose proof (process_pending_loop_frame (pending_rows w)
                  {| processed_count := 0; successful_count := 0;
                     failed_count := 0; errors := [] |} (tick_db w))
      as (Hs & Hl & Hh & Hd).
    destruct (process_pending_loop_counts (pending_rows w)
                {| processed_count := 0; successful_count := 0;
                   failed_count := 0; errors := [] |} (tick_db w))
      as (s & w' & Hrun & _ & _).
    rewrite Hrun in *. simpl in *. repeat split; try assumption; lia.
Qed.

(** X18.  One round of the bulk loop, when the store takes the write and a
    row carries the forum ID.  The model is given the normalised text of
    the comment, or the word "None" when the comment has no text.  If it
    yields a dictionary, the round counts a success and the rows with the
    ID are completed with that dictionary; if it yields nothing, the round
    counts a failure and those rows are in error with payload and email
    null. *)
Theorem process_pending_step_outcome
    (comment : CommentRow) (s : Summary) (w : World) :
  db_fault w (db_calls w) = None ->
  hn_id_taken (hn_id comment) (comments w) = true ->
  exists w' : World,
    match llm w (llm_calls w)
            (match story_text comment with
             | Some text => clean_str text
             | None => "None"
             end) with
    | Some d =>
        process_pending_step comment s w = (Ok (add_successful s), w') /\
        Forall (fun r => hn_id r = hn_id comment ->
                         processed_status r = "completed" /\
                         structured_data r = JObj d) (comments w')
    | None =>
        process_pending_step comment s w = (Ok (add_failed s), w') /\
        Forall (fun r => hn_id r = hn_id comment -> error_shape r)
          (comments w')
    end.
Proof.
  intros Hdb Htaken.
  unfold process_pending_step, try_except, bind,
    _extract_job_data_with_claude.
  replace (fmt (_clean_html_text (story_text comment)))
    with (match story_text comment with
          | Some text => clean_str text
          | None => "None"
          end) by (destruct (story_text comment); reflexivity).
  destruct (llm w (llm_calls w)
              match story_text comment with
              | Some text => clean_str text
              | None => "None"
              end) as [d|];
    unfold _update_comment_with_results, try_except, bind;
    rewrite update_comment_status_run;
    change (db_fault (tick_llm w) (db_calls (tick_llm w)))
      with (db_fault w (db_calls w));
    rewrite Hdb; change (comments (tick_llm w)) with (comments w);
    rewrite ?Htaken; eexists; (split; [reflexivity|]);
    cbn [comments set_comments with_tables];
    apply Forall_forall; intros r Hr Hid;
    apply in_map_iff in Hr as (r0 & <- & _);
    (destruct (hn_id r0 =? hn_id comment)%Z eqn:E;
     [repeat split|apply Z.eqb_neq in E; contradiction]).
Qed.

(** A comment without text goes to the model as the word "None". *)
Lemma process_pending_step_outcome_witness :
  let model := fun (_ : nat) (text : string) =>
                 if text =? "None" then Some [("company", JStr "None Inc")]
                 else None in
  let w := world_of [] [textless_comment 7] true model no_item in
  let s := {| processed_count := 0; successful_count := 0;
              failed_count := 0; errors := [] |} in
  db_fault w (db_calls w) = None /\
  hn_id_taken (hn_id (textless_comment 7)) (comments w) = true /\
  fst (process_pending_step (textless_comment 7) s w) = Ok (add_successful s) /\
  exists w' : World,
    match llm w (llm_calls w)
            (match story_text (textless_comment 7) with
             | Some text => clean_str text
             | None => "None"
             end) with
    | Some d =>
        process_pending_step (textless_comment 7) s w
        = (Ok (add_successful s), w') /\
        Forall (fun r => hn_id r = hn_id (textless_comment 7) ->
                         processed_status r = "completed" /\
                         structured_data r = JObj d) (comments w')
    | None =>
        process_pending_step (textless_comment 7) s w
        = (Ok (add_failed s), w') /\
        Forall (fun r => hn_id r = hn_id (textless_comment 7) ->
                         error_shape r) (comments w')
    end.
Proof.
  cbv zeta. split; [reflexivity|]. split; [reflexivity|].
  split; [reflexivity|].
  apply (process_pending_step_outcome (textless_comment 7)
           {| processed_count := 0; successful_count := 0;
              failed_count := 0; errors := [] |}
           (world_of [] [textless_comment 7] true
              (fun (_ : nat) (text : string) =>
                 if text =? "None" then Some [("company", JStr "None Inc")]
                 else None) no_item)); reflexivity.
Defined.

(** *** Text normalisation: size, fixed points, nested escapes *)

Section NormalisationFacts.

Import PyStr.

Lemma length_append (a b : string) :
  String.length (a ++ b) = String.length a + String.length b.
Proof. induction a as [|c a IH]; simpl; [reflexivity|now rewrite IH]. Qed.

Lemma clean_str_length_le (n : nat) :
  forall s, String.length s <= n ->
            String.length (clean_str s) <= String.length s.
Proof.
  induction n as [|n IH]; intros [|c t] Hlen; simpl in Hlen;
    try (rewrite clean_nil; simpl; lia); try lia.
  destruct (startswith ent_slash (String c t)) eqn:E1.
  - pose proof (startswith_split _ _ E1) as S.
    change (drop (String.length ent_slash) (String c t)) with (drop 5 t) in S.
    pose proof (length_drop_le 5 t) as Hd.
    rewrite S at 1. rewrite clean_cons_slash.
    specialize (IH (drop 5 t) ltac:(lia)).
    cbn [String.length]. lia.
  - destruct (startswith ent_amp (String c t)) eqn:E2.
    + pose proof (startswith_split _ _ E2) as S.
      change (drop (String.length ent_amp) (String c t)) with (drop 4 t) in S.
      pose proof (length_drop_le 4 t) as Hd.
      rewrite S at 1. rewrite clean_cons_amp.
      specialize (IH (drop 4 t) ltac:(lia)).
      cbn [String.length]. lia.
    + rewrite (clean_cons_other _ _ E1 E2).
      specialize (IH t ltac:(lia)). cbn [String.length]. lia.
Qed.

(** An entity at the head makes the result strictly shorter. *)
Lemma clean_str_shorter_head (c : ascii) (t : string) :
  startswith ent_slash (String c t) = true \/
  startswith ent_amp (String c t) = true ->
  String.length (clean_str (String c t)) < String.length (String c t).
Proof.
  intros [E|E]; pose proof (startswith_split _ _ E) as S.
  - rewrite S. rewrite clean_cons_slash, length_append.
    pose proof (clean_str_length_le _ _
                  (le_n (String.length (drop (String.length ent_slash)
                                          (String c t))))).
    cbn [String.length ent_slash] in *. lia.
  - rewrite S. rewrite clean_cons_amp, length_append.
    pose proof (clean_str_length_le _ _
                  (le_n (String.length (drop (String.length ent_amp)
                                          (String c t))))).
    cbn [String.length ent_amp] in *. lia.
Qed.

Lemma clean_str_shorter (s : string) :
  contains ent_slash s = true \/ contains ent_amp s = true ->
  String.length (clean_str s) < String.length s.
Proof.
  induction s as [|c t IH]; [intros [H|H]; discriminate|].
  intros Hocc.
  destruct (startswith ent_slash (String c t)) eqn:E1;
    [apply clean_str_shorter_head; now left|].
  destruct (startswith ent_amp (String c t)) eqn:E2;
    [apply clean_str_shorter_head; now right|].
  rewrite (clean_cons_other _ _ E1 E2). cbn [String.length].
  apply -> Nat.succ_lt_mono. apply IH.
  cbn [contains] in Hocc. rewrite E1, E2 in Hocc. exact Hocc.
Qed.

Lemma clean_str_nested_slash (a x : string) :
  clean_str (a ++ "&amp;#x2F;" ++ x) = clean_str a ++ "&#x2F;" ++ clean_str x.
Proof.
  change ("&amp;#x2F;" ++ x) with (String "&" ("amp;#x2F;" ++ x)).
  rewrite clean_str_app_amp. f_equal.
  change (String "&" ("amp;#x2F;" ++ x)) with (ent_amp ++ ("#x2F;" ++ x)).
  rewrite clean_cons_amp.
  change ("#x2F;" ++ x)
    with (String "#" (String "x" (String "2" (String "F" (String ";" x))))).
  do 5 (rewrite clean_cons_other by reflexivity).
  reflexivity.
Qed.

Lemma clean_str_nested_amp (a x : string) :
  clean_str (a ++ "&amp;amp;" ++ x) = clean_str a ++ "&amp;" ++ clean_str x.
Proof.
  change ("&amp;amp;" ++ x) with (String "&" ("amp;amp;" ++ x)).
  rewrite clean_str_app_amp. f_equal.
  change (String "&" ("amp;amp;" ++ x)) with (ent_amp ++ ("amp;" ++ x)).
  rewrite clean_cons_amp.
  change ("amp;" ++ x)
    with (String "a" (String "m" (String "p" (String ";" x)))).
  do 4 (rewrite clean_cons_other by reflexivity).
  reflexivity.
Qed.

End NormalisationFacts.

(** X19.  [_clean_html_text] never makes a text longer, and it returns a
    text unchanged exactly when neither [&#x2F;] nor [&amp;] occurs in it;
    a missing text ([None]) comes back as [None]. *)
Theorem clean_html_text_fixed_points :
  (forall raw_text : string,
      String.length (clean_str raw_text) <= String.length raw_text) /\
  (forall raw_text : string,
      _clean_html_text (Some raw_text) = Some raw_text <->
      PyStr.contains ent_slash raw_text = false /\
      PyStr.contains ent_amp raw_text = false) /\
  _clean_html_text None = None.
Proof.
  split; [|split; [|reflexivity]].
  - intros s. exact (clean_str_length_le _ s (le_n _)).
  - intros s. unfold _clean_html_text. split.
    + intros H. injection H as H.
      destruct (PyStr.contains ent_slash s) eqn:E1.
      { pose proof (clean_str_shorter s (or_introl E1)) as Hlt.
        rewrite H in Hlt. lia. }
      destruct (PyStr.contains ent_amp s) eqn:E2.
      { pose proof (clean_str_shorter s (or_intror E2)) as Hlt.
        rewrite H in Hlt. lia. }
      split; reflexivity.
    + intros [H1 H2]. f_equal. now apply clean_str_no_entity.
Qed.

(** X20.  One level only: the ampersand entity is replaced after the
    slash entity, so a doubly escaped entity loses one level of escaping
    and an entity is left in the output.  Wherever [&amp;#x2F;] stands in
    the input, [&#x2F;] stands in the output, and [&amp;amp;] becomes
    [&amp;]; a second pass would change the text again. *)
Theorem clean_html_text_one_level :
  (forall before after : string,
      _clean_html_text (Some (before ++ "&amp;#x2F;" ++ after))
      = Some (clean_str before ++ "&#x2F;" ++ clean_str after)) /\
  (forall before after : string,
      _clean_html_text (Some (before ++ "&amp;amp;" ++ after))
      = Some (clean_str before ++ "&amp;" ++ clean_str after)) /\
  (forall before after : string,
      _clean_html_text
        (_clean_html_text (Some (before ++ "&amp;#x2F;" ++ after)))
      <> _clean_html_text (Some (before ++ "&amp;#x2F;" ++ after))).
Proof.
  split; [|split].
  - intros a x. unfold _clean_html_text. f_equal. apply clean_str_nested_slash.
  - intros a x. unfold _clean_html_text. f_equal. apply clean_str_nested_amp.
  - intros a x. unfold _clean_html_text.
    rewrite clean_str_nested_slash.
    set (y := clean_str a ++ "&#x2F;" ++ clean_str x).
    intros H. injection H as H.
    assert (Hocc : PyStr.contains ent_slash y = true).
    { subst y. clear. induction (clean_str a) as [|c t IH]; [reflexivity|].
      change (String c t ++ "&#x2F;" ++ clean_str x)
        with (String c (t ++ "&#x2F;" ++ clean_str x)).
      cbn [PyStr.contains]. rewrite IH. apply orb_true_r. }
    pose proof (clean_str_shorter y (or_introl Hocc)) as Hlt.
    rewrite H in Hlt. lia.
Qed.

(* ===================================================================== *)
(** ** services/cron_service.py *)
(* ===================================================================== *)

(** *** Only growth *)

Lemma grows_refl (w : World) : grows 0 w w.
Proof. exists [], []. rewrite !app_nil_r. repeat split. apply le_n. Qed.

Lemma grows_same (w w' : World) :
  stories w' = stories w -> comments w' = comments w -> grows 0 w w'.
Proof.
  intros Hs Hc. exists [], []. rewrite Hs, Hc, !app_nil_r.
  repeat split. apply le_n.
Qed.

Lemma grows_trans (n m : nat) (w w1 w2 : World) :
  grows n w w1 -> grows m w1 w2 -> grows (n + m) w w2.
Proof.
  intros (s1 & c1 & Hs1 & Hl1 & Hc1) (s2 & c2 & Hs2 & Hl2 & Hc2).
  exists (s1 ++ s2)%list, (c1 ++ c2)%list.
  rewrite Hs2, Hs1, Hc2, Hc1, <- !app_assoc, length_app.
  repeat split. lia.
Qed.

Lemma grows_weaken (n m : nat) (w w' : World) :
  n <= m -> grows n w w' -> grows m w w'.
Proof.
  intros Hle (s & c & Hs & Hl & Hc). exists s, c. repeat split; auto. lia.
Qed.

Lemma adds_ret {A : Type} (a : A) : adds 0 (ret a).
Proof. intros w. apply grows_refl. Qed.

Lemma adds_raise {A : Type} (e : exn) : adds 0 (@raise A e).
Proof. intros w. apply grows_refl. Qed.

Lemma adds_call {A : Type} (r : result A) : adds 0 (call r).
Proof. intros w. apply grows_refl. Qed.

Lemma adds_bind {A B : Type} (n k : nat) (m : M A) (f : A -> M B) :
  adds n m -> (forall a, adds k (f a)) -> adds (n + k) (bind m f).
Proof.
  intros Hm Hf w. unfold bind. specialize (Hm w).
  destruct (m w) as [[a|e] w1]; simpl in Hm.
  - exact (grows_trans _ _ _ _ _ Hm (Hf a w1)).
  - simpl. apply (grows_weaken n); [lia|exact Hm].
Qed.

Lemma adds_try_except {A : Type} (n : nat) (m : M A) (h : exn -> M A) :
  adds n m -> (forall e, adds 0 (h e)) -> adds n (try_except m h).
Proof.
  intros Hm Hh w. unfold try_except. specialize (Hm w).
  destruct (m w) as [[a|e] w1]; simpl in Hm; [exact Hm|].
  replace n with (n + 0) by lia.
  exact (grows_trans _ _ _ _ _ Hm (Hh e w1)).
Qed.

Lemma adds_execute {A : Type} (n : nat) (op : M A) :
  adds n op -> adds n (execute op).
Proof.
  intros Hop w. unfold execute.
  destruct (db_fault w (db_calls w)).
  - apply (grows_weaken 0); [lia|]. now apply grows_same.
  - exact (Hop (tick_db w)).
Qed.

Lemma adds_fetch_story (item : Z) : adds 0 (fetch_story item).
Proof. intros w. rewrite fetch_story_world. now apply grows_same. Qed.

Lemma adds_fetch_comments_batch (ids : list Z) :
  adds 0 (fetch_comments_batch ids).
Proof.
  intros w.
  destruct (fetch_comments_loop_counts ids [] w) as (_ & Hs & Hc).
  exists [], []. unfold fetch_comments_batch.
  rewrite Hs, Hc, !app_nil_r. repeat split. apply le_n.
Qed.

Lemma adds_create_story (h : Z) (t : option string) (k : Z) (m : string)
    (d s : Z) (c : option string) :
  adds 1 (create_story h t k m d s c).
Proof.
  unfold create_story.
  apply adds_try_except; [|intros e; apply adds_raise].
  change 1 with (0 + 1).
  apply adds_bind.
  - apply adds_execute. intros w. apply grows_refl.
  - intros [|existing others].
    + change 1 with (1 + 0). apply adds_bind.
      * apply adds_execute. intros w.
        eexists [_], []. cbn [insert_story snd stories comments with_tables].
        rewrite app_nil_r. repeat split. apply le_n.
      * intros [|created rest]; [apply adds_raise|apply adds_ret].
    + intros w. apply (grows_weaken 0); [lia|]. apply grows_refl.
Qed.

Lemma adds_batch_create_comments (batch : list CommentRow) :
  adds 0 (batch_create_comments batch).
Proof.
  unfold batch_create_comments.
  apply adds_try_except; [|intros e; apply adds_raise].
  destruct batch as [|b rest]; [apply adds_ret|].
  change 0 with (0 + 0). apply adds_bind; [|intros a; apply adds_ret].
  apply adds_execute. intros w. unfold insert_comments.
  destruct (comments_hn_id_unique w && negb (no_collision (comments w) (b :: rest))).
  - apply grows_refl.
  - exists [], (b :: rest). cbn [snd stories comments set_comments with_tables].
    rewrite app_nil_r. repeat split. apply le_n.
Qed.

Lemma adds_validate_comments (models : Models) (raw : list json) (sid : Z) :
  forall validated, adds 0 (validate_comments models raw sid validated).
Proof.
  induction raw as [|c rest IH]; intros validated; [apply adds_ret|].
  cbn [validate_comments].
  change 0 with (0 + (0 + 0)).
  apply adds_bind; [apply adds_call|]. intros hc.
  apply adds_bind; [apply adds_call|]. intros dc. apply IH.
Qed.

(** X21.  The ingestion workflow only adds.  Whatever the forum, the
    store and the validation do, and whether the run returns or raises,
    the tables after [process_hiring_thread] are the tables before with
    rows appended: at most one story, and no stored story or comment is
    changed or removed.  In particular a story stored by a run that fails
    later stays stored: nothing is rolled back. *)
Theorem process_hiring_thread_only_adds
    (models : Models) (story_id0 : Z) (w : World) :
  grows 1 w (snd (process_hiring_thread models story_id0 w)).
Proof.
  revert w. change (adds 1 (process_hiring_thread models story_id0)).
  unfold process_hiring_thread.
  apply adds_try_except; [|intros e; apply adds_raise].
  change 1 with (0 + (0 + (0 + (1 + (0 + (0 + (0 + (0 + 0)))))))).
  apply adds_bind; [apply adds_fetch_story|]. intros response.
  apply adds_bind; [apply adds_call|]. intros hn_story.
  apply adds_bind; [apply adds_call|]. intros db_story_data.
  apply adds_bind; [apply adds_create_story|]. intros saved_story.
  apply adds_bind.
  { destruct (kids models hn_story); [apply adds_ret|apply adds_raise]. }
  intros comment_ids.
  apply adds_bind; [apply adds_fetch_comments_batch|]. intros raw_comments.
  apply adds_bind; [apply adds_validate_comments|]. intros validated.
  apply adds_bind; [apply adds_batch_create_comments|]. intros saved_count.
  apply adds_ret.
Qed.

(** A run that stores the story and then fails on the first comment: the
    story stays. *)
Example process_hiring_thread_no_rollback :
  let w := world_of [] [] true silent_llm broken_thread_forum in
  fst (process_hiring_thread sample_models 40000001 w)
  = Raise (Exn HNAPIError
             "API request failed: Server error '500 Internal Server Error'") /\
  map story_hn_id (stories (snd (process_hiring_thread sample_models 40000001 w)))
  = [40000001%Z].
Proof. split; reflexivity. Qed.

(** *** What a returned summary says *)

Lemma call_run {A : Type} (r : result A) (w : World) : call r w = (r, w).
Proof. reflexivity. Qed.

Lemma validate_comments_run (models : Models) (raw : list json) (sid : Z) :
  forall (validated res : list CommentRow) (w w' : World),
    validate_comments models raw sid validated w = (Ok res, w') ->
    w' = w /\
    List.length res = List.length validated + List.length raw.
Proof.
  induction raw as [|c rest IH]; intros validated res w w'.
  - simpl. unfold ret. intros H; injection H as <- <-. split; [reflexivity|lia].
  - cbn [validate_comments]. unfold bind, call.
    destruct (HNCommentResponse models c) as [hc|e]; [|discriminate].
    destruct (from_hn_comment models hc sid) as [dc|e]; [|discriminate].
    intros H. apply IH in H as [-> Hlen]. split; [reflexivity|].
    rewrite Hlen, length_app. simpl. lia.
Qed.

Lemma batch_create_comments_ok (batch : list CommentRow) (w w' : World)
    (n : Z) :
  batch_create_comments batch w = (Ok n, w') ->
  n = Z.of_nat (List.length batch) /\
  comments w' = (comments w ++ batch)%list /\ stories w' = stories w /\
  http_calls w' = http_calls w.
Proof.
  unfold batch_create_comments, try_except, bind.
  destruct batch as [|b rest].
  - unfold ret. intros H; injection H as <- <-.
    rewrite app_nil_r. repeat split.
  - unfold execute. destruct (db_fault w (db_calls w)); [discriminate|].
    unfold insert_comments.
    destruct (comments_hn_id_unique (tick_db w)
              && negb (no_collision (comments (tick_db w)) (b :: rest)));
      [discriminate|].
    unfold ret. intros H; injection H as <- <-. repeat split.
Qed.

Lemma create_story_comments (h : Z) (t : option string) (k : Z) (m : string)
    (d s : Z) (c : option string) (w : World) :
  comments (snd (create_story h t k m d s c w)) = comments w.
Proof.
  unfold create_story, try_except, bind, execute.
  destruct (db_fault w (db_calls w)); [reflexivity|].
  unfold select_stories_by_hn_id.
  destruct (filter (fun r => (story_hn_id r =? h)%Z) (stories (tick_db w)));
    [|reflexivity].
  destruct (db_fault (tick_db w) (db_calls (tick_db w))); reflexivity.
Qed.

(** X22.  When [process_hiring_thread] returns, its summary echoes the
    story ID, says [story_saved = True] with an empty error list, and
    names in [story_db_id] the [id] of a stored story that carries the
    forum ID the transformation produced.  [comments_saved] always equals
    [comments_fetched]: the rows appended to the comments table by the run
    are as many as that, and they are not more than the story's kids. *)
Theorem process_hiring_thread_summary
    (models : Models) (story_id0 : Z) (w w' : World) (s : HiringSummary) :
  process_hiring_thread models story_id0 w = (Ok s, w') ->
  summary_story_id s = story_id0 /\
  story_saved s = true /\ summary_errors s = [] /\
  comments_saved s = comments_fetched s /\
  (exists row, In row (stories w') /\ id row = story_db_id s) /\
  (exists added,
      comments w' = (comments w ++ added)%list /\
      Z.of_nat (List.length added) = comments_saved s) /\
  http_calls w < http_calls w' /\
  (comments_fetched s <= Z.of_nat (http_calls w' - http_calls w - 1))%Z.
Proof.
  unfold process_hiring_thread, try_except, bind.
  pose proof (fetch_story_world story_id0 w) as Hw0.
  destruct (fetch_story story_id0 w) as [[response|e] w0]; [|discriminate].
  simpl in Hw0; subst w0.
  rewrite call_run.
  destruct (HNStoryResponse models response) as [hn_story|e]; [|discriminate].
  rewrite call_run.
  destruct (from_hn_story models hn_story) as [data|e]; [|discriminate].
  pose proof (create_story_comments (sd_hn_id data) (sd_title data)
                (sd_kids_count data) (sd_month data)
                (sd_descendants_count data) (sd_score data)
                (sd_created_time data) (tick_http w)) as Hcc.
  pose proof (adds_create_story (sd_hn_id data) (sd_title data)
                (sd_kids_count data) (sd_month data)
                (sd_descendants_count data) (sd_score data)
                (sd_created_time data) (tick_http w)) as Hgrow.
  destruct (create_story (sd_hn_id data) (sd_title data)
              (sd_kids_count data) (sd_month data)
              (sd_descendants_count data) (sd_score data)
              (sd_created_time data) (tick_http w))
    as [[saved|e] w1] eqn:Hcreate; [|discriminate].
  simpl in Hcc.
  destruct (create_story_ok_first _ _ _ _ _ _ _ _ _ _ Hcreate)
    as (others & Hfirst).
  assert (Hcalls1 : http_calls w1 = S (http_calls w)).
  { clear - Hcreate. revert Hcreate.
    unfold create_story, try_except, bind, execute.
    destruct (db_fault (tick_http w) (db_calls (tick_http w)));
      [discriminate|].
    unfold select_stories_by_hn_id.
    destruct (filter _ _).
    - destruct (db_fault (tick_db (tick_http w))
                  (db_calls (tick_db (tick_http w)))); [discriminate|].
      unfold insert_story, ret. intros H; injection H as _ <-. reflexivity.
    - unfold ret. intros H; injection H as _ <-. reflexivity. }
  destruct (kids models hn_story) as [ids|]; [|discriminate].
  unfold ret at 1.
  pose proof (fetch_comments_batch_counts_aux ids w1) as Hbatch.
  destruct (fetch_comments_batch ids w1) as [[raw|e] w2]; [|discriminate].
  simpl in Hbatch. destruct Hbatch as ((Hc2 & Hlen2) & Hs2 & Hcm2).
  destruct (validate_comments models raw (id saved) [] w2)
    as [[validated|e] w3] eqn:Hval; [|discriminate].
  apply validate_comments_run in Hval as [-> Hlen3].
  destruct (batch_create_comments validated w2) as [[n|e] w4] eqn:Hb;
    [|discriminate].
  apply batch_create_comments_ok in Hb as (-> & Hcm4 & Hs4 & Hc4).
  unfold ret. intros H. injection H as <- <-. cbn.
  repeat split.
  - exists saved. split; [|reflexivity].
    rewrite Hs4, Hs2.
    assert (Hin : In saved (filter (fun x => (story_hn_id x =? sd_hn_id data)%Z)
                              (stories w1)))
      by (rewrite Hfirst; now left).
    now apply filter_In in Hin as [Hin _].
  - exists validated. rewrite Hcm4, Hcm2, Hcc. split; reflexivity.
  - lia.
  - simpl in Hlen3. lia.
Qed.

Lemma process_hiring_thread_summary_witness :
  let w := world_of [] [] true silent_llm scenario_forum in
  let s := {| summary_story_id := 40000001; story_db_id := 1;
              story_saved := true; comments_fetched := 2;
              comments_saved := 2; summary_errors := [] |} in
  let w' := snd (process_hiring_thread sample_models 40000001 w) in
  process_hiring_thread sample_models 40000001 w = (Ok s, w') /\
  (summary_story_id s = 40000001%Z /\
   story_saved s = true /\ summary_errors s = [] /\
   comments_saved s = comments_fetched s /\
   (exists row, In row (stories w') /\ id row = story_db_id s) /\
   (exists added,
       comments w' = (comments w ++ added)%list /\
       Z.of_nat (List.length added) = comments_saved s) /\
   http_calls w < http_calls w' /\
   (comments_fetched s <= Z.of_nat (http_calls w' - http_calls w - 1))%Z).
Proof.
  cbv zeta. split; [reflexivity|].
  apply (process_hiring_thread_summary sample_models 40000001
           (world_of [] [] true silent_llm scenario_forum)
           (snd (process_hiring_thread sample_models 40000001
                   (world_of [] [] true silent_llm scenario_forum)))
           {| summary_story_id := 40000001; story_db_id := 1;
              story_saved := true; comments_fetched := 2;
              comments_saved := 2; summary_errors := [] |}).
  reflexivity.
Defined.

(** *** The ingestion endpoint when the forum fails on the story *)

(** X23.  The ingestion endpoint when the request for the story fails.
    A transport failure is wrapped twice, by [fetch_story] and by the
    workflow, so the answer's error text carries the prefix
    [API request failed: ] two times; a 404 gives the prefix once in front
    of the not-found text; any other status outside 200..299 gives the
    prefix in front of the text of httpx's status error.  In all three
    cases the answer is the failure dictionary with the story ID, one
    forum request was made and the store saw no request. *)
Theorem hiring_endpoint_story_failure
    (models : Models) (story_id0 : Z) (w : World) :
  match http w (http_calls w) story_id0 with
  | Transport err =>
      Router.test_process_hiring_thread models story_id0 w
      = (Router.HiringErr
           ("API request failed: API request failed: " ++ err) story_id0,
         tick_http w)
  | Reply response =>
      if (status_code response =? 404)%Z then
        Router.test_process_hiring_thread models story_id0 w
        = (Router.HiringErr
             ("API request failed: Story " ++ PyStr.of_int story_id0
              ++ " not found or deleted") story_id0,
           tick_http w)
      else if is_success response then True
      else
        Router.test_process_hiring_thread models story_id0 w
        = (Router.HiringErr
             ("API request failed: " ++ status_err response) story_id0,
           tick_http w)
  end.
Proof.
  unfold Router.test_process_hiring_thread, Router.handle,
    process_hiring_thread, fetch_story, try_except, try_except_only,
    session_get, bind.
  destruct (http w (http_calls w) story_id0) as [response|err].
  - destruct (status_code response =? 404)%Z; [reflexivity|].
    unfold raise_for_status.
    destruct (is_success response); [exact I|reflexivity].
  - reflexivity.
Qed.

(** *** The extraction endpoints *)

(** X24.  The single extraction endpoint never answers with its failure
    dictionary: [process_single_comment] of the service catches every
    exception itself, so the endpoint's answer always says success and
    carries the service's dictionary, also when that one reports a
    failure.  When the store fails the lookup, or answers and holds no row
    with the forum ID, the answer is the success envelope around the
    inner failure. *)
Theorem single_endpoint_always_success (hn_id0 : Z) (w : World) :
  exists data : SingleResult,
    fst (Router.process_single_comment hn_id0 w)
    = Router.SingleOk
        ("Processed comment " ++ PyStr.of_int hn_id0 ++ " with Claude") data /\
    match db_fault w (db_calls w) with
    | Some msg => data = Failure hn_id0 ("Error fetching comments: " ++ msg)
    | None =>
        match rows_with hn_id0 (comments w) with
        | [] =>
            data = Failure hn_id0
                     ("No comment found with HN ID " ++ PyStr.of_int hn_id0)
        | comment :: _ =>
            match story_text comment with
            | None =>
                data = Failure hn_id0 "'NoneType' object is not subscriptable"
            | Some _ => exists sd b, data = Success hn_id0 sd b
            end
        end
    end.
Proof.
  unfold Router.process_single_comment, Router.handle,
    process_single_comment, try_except, bind, rows_with.
  rewrite get_comments_by_hn_id_run.
  destruct (db_fault w (db_calls w)) as [msg|].
  { eexists; split; reflexivity. }
  change (comments (tick_db w)) with (comments w).
  destruct (filter (fun c => (hn_id c =? hn_id0)%Z) (comments w))
    as [|comment others].
  { eexists; split; reflexivity. }
  destruct (story_text comment) as [text|].
  2:{ eexists; split; reflexivity. }
  cbn [check_sliceable _clean_html_text ret].
  unfold _extract_job_data_with_claude.
  destruct (_update_comment_with_results_total (hn_id comment)
              (llm (tick_db w) (llm_calls (tick_db w))
                 (fmt (Some (clean_str text))))
              default_status (tick_llm (tick_db w))) as (b & w' & ->).
  eexists; split; [reflexivity|]. eauto.
Qed.

(** X25.  The bulk extraction endpoint answers with its failure dictionary
    exactly when the first store request, the fetch of the pending rows,
    fails; the error text is then the one of [get_pending_comments] and
    nothing was asked of the model.  In every other case the answer says
    success, whatever happened to the single comments. *)
Theorem pending_endpoint_failure (w : World) :
  match db_fault w (db_calls w) with
  | Some msg =>
      Router.process_pending_comments w
      = (Router.PendingErr ("Error fetching comments: " ++ msg), tick_db w)
  | None =>
      exists (s : Summary) (w' : World),
        Router.process_pending_comments w
        = (Router.PendingOk "Processed all pending comments with Claude" s,
           w') /\
        (successful_count s + failed_count s + Z.of_nat (List.length (errors s))
         = Z.of_nat (List.length (pending_rows w)))%Z
  end.
Proof.
  unfold Router.process_pending_comments, Router.handle,
    process_pending_comments, bind.
  rewrite get_pending_comments_run.
  destruct (db_fault w (db_calls w)) as [msg|]; [reflexivity|].
  destruct (process_pending_loop_counts (pending_rows w)
              {| processed_count := 0; successful_count := 0;
                 failed_count := 0; errors := [] |} (tick_db w))
    as (s & w' & -> & _ & Hsettled).
  exists s, w'. split; [reflexivity|].
  unfold settled in Hsettled. simpl in Hsettled. lia.
Qed.

(** *** The jobs endpoint *)

(** What [get_completed_jobs] does in any world: it reads only, makes one
    or two store requests, returns completed rows of the table, and
    raises nothing but its own wrapped error. *)
Lemma get_completed_jobs_cases (m : string) (w : World) :
  stories (snd (get_completed_jobs m w)) = stories w /\
  comments (snd (get_completed_jobs m w)) = comments w /\
  db_calls w < db_calls (snd (get_completed_jobs m w)) <= db_calls w + 2 /\
  match fst (get_completed_jobs m w) with
  | Ok jobs =>
      Forall (fun c => In c (comments w) /\ processed_status c = "completed")
        jobs
  | Raise e =>
      exists msg, e = Exn DatabaseError ("Error fetching comments: " ++ msg)
  end.
Proof.
  unfold get_completed_jobs, try_except, bind, execute.
  destruct (db_fault w (db_calls w)) as [msg|].
  { simpl. repeat split; try lia. now exists msg. }
  unfold select_story_ids_by_month.
  destruct (map id (filter (fun r => month r =? m) (stories (tick_db w))))
    as [|sid others].
  { simpl. repeat split; try lia. constructor. }
  destruct (db_fault (tick_db w) (db_calls (tick_db w))) as [msg|].
  { simpl. repeat split; try lia. now exists msg. }
  simpl. repeat split; try lia.
  apply Forall_forall. intros c Hc.
  apply filter_In in Hc as [Hc _].
  apply filter_In in Hc as [Hc Hst].
  split; [exact Hc|]. now apply String.eqb_eq.
Qed.

(** X26.  The jobs endpoint reads only and makes at most two store
    requests.  A success answer carries [count = len(data)], rows of the
    comments table whose status is [completed], and a month that is the
    caller's text or the current year followed by a dash and a two-digit
    month.  A failure answer is one of two: the month was a name the
    lookup does not know, and then the store saw no request; or the store
    failed, and the text is the one of [get_completed_jobs]. *)
Theorem get_jobs_reply (current_year current_month : Z)
    (month_value : string -> option Z) (month : option string) (w : World) :
  let r := Router.get_jobs current_year current_month month_value month w in
  stories (snd r) = stories w /\ comments (snd r) = comments w /\
  db_calls (snd r) <= db_calls w + 2 /\
  match fst r with
  | Router.JobsOk data count m =>
      count = Z.of_nat (List.length data) /\
      Forall (fun c => In c (comments w) /\ processed_status c = "completed")
        data /\
      (month = Some m \/
       exists value,
         m = PyStr.of_int current_year ++ "-" ++ Router.fmt_02d value)
  | Router.JobsErr err =>
      (exists name,
          month = Some name /\ PyStr.contains "-" name = false /\
          month_value name = None /\
          err = "Invalid month name: " ++ name /\ snd r = w) \/
      (exists msg,
          err = "Error fetching comments: " ++ msg /\
          db_calls w < db_calls (snd r))
  end.
Proof.
  cbv zeta.
  assert (Hquery : forall m,
    (month = Some m \/
     exists value,
       m = PyStr.of_int current_year ++ "-" ++ Router.fmt_02d value) ->
    let r := Router.handle (get_completed_jobs m)
               (fun jobs => Router.JobsOk jobs (Z.of_nat (List.length jobs)) m)
               (fun e => Router.JobsErr (str_of e)) w in
    stories (snd r) = stories w /\ comments (snd r) = comments w /\
    db_calls (snd r) <= db_calls w + 2 /\
    match fst r with
    | Router.JobsOk data count m' =>
        count = Z.of_nat (List.length data) /\
        Forall (fun c => In c (comments w) /\ processed_status c = "completed")
          data /\
        (month = Some m' \/
         exists value,
           m' = PyStr.of_int current_year ++ "-" ++ Router.fmt_02d value)
    | Router.JobsErr err =>
        (exists name,
            month = Some name /\ PyStr.contains "-" name = false /\
            month_value name = None /\
            err = "Invalid month name: " ++ name /\ snd r = w) \/
        (exists msg,
            err = "Error fetching comments: " ++ msg /\
            db_calls w < db_calls (snd r))
    end).
  { intros m Hm. cbv zeta. unfold Router.handle.
    pose proof (get_completed_jobs_cases m w) as (Hs & Hc & Hd & Hr).
    destruct (get_completed_jobs m w) as [[jobs|e] w']; simpl in *.
    - repeat split; try assumption; lia.
    - repeat split; try assumption; try lia.
      right. destruct Hr as (msg & ->). exists msg. split; [reflexivity|lia]. }
  unfold Router.get_jobs.
  destruct month as [m|].
  - destruct (m =? "") eqn:Hempty.
    + apply Hquery. right. now exists current_month.
    + destruct (PyStr.contains "-" m) eqn:Hdash; cbn [negb].
      * apply Hquery. now left.
      * destruct (month_value m) as [value|] eqn:Hvalue.
        -- apply Hquery. right. now exists value.
        -- simpl. repeat split; try lia.
           left. exists m. repeat split; assumption.
  - apply Hquery. right. now exists current_month.
Qed.

(** A name the lookup does not know is answered without a store request;
    a month with a dash goes to the store as it is. *)
Example get_jobs_runs :
  let months := fun name : string =>
                  if name =? "september" then Some 9%Z else None in
  let done := sample_comment 7 1 "completed" in
  let w := world_of [sample_story 1 40000001 "2025-09"]
             [done; sample_comment 8 1 "pending"] true silent_llm no_item in
  Router.get_jobs 2025 11 months (Some "septober") w
  = (Router.JobsErr "Invalid month name: septober", w) /\
  fst (Router.get_jobs 2025 11 months (Some "september") w)
  = Router.JobsOk [done] 1 "2025-09" /\
  fst (Router.get_jobs 2025 11 months (Some "2025-09") w)
  = Router.JobsOk [done] 1 "2025-09" /\
  fst (Router.get_jobs 2025 11 months None w)
  = Router.JobsOk [] 0 "2025-11".
Proof. repeat split; reflexivity. Qed.
